(** * deno-router: a shallow embedding of [mod.ts]

    The development follows the source file top to bottom in three
    name spaces:

    - [Json]     : JavaScript values, the [Response] objects built by the
                   helpers [toJson], [toText], [toHtml], and the part of
                   [JSON.stringify] that [jsonReplacer] interacts with;
    - [UserData] : the per-request key-value store of [createUserData];
    - [Router]   : the closure state of [router()], the registration
                   functions, [runMiddlewares], the two handler
                   constructors and the dispatch function handed to
                   [Deno.serve].
*)

From Stdlib Require Import ZArith String Ascii List Lia.
From Stdlib Require Import DecimalString DecimalZ DecimalPos.
From stdpp Require Import base option list strings gmap fin_maps.

Set Warnings "-register-all".

Open Scope Z_scope.
Open Scope string_scope.
Open Scope list_scope.

(* ===================================================================== *)
(** ** JavaScript values, responses and JSON serialisation                *)
(* ===================================================================== *)

Module Json.

(** The values a handler can pass as a body or keep in the user data
    store.  A [Number] is kept as the 64-bit pattern of its IEEE double;
    a [bigint] is an unbounded integer; an object is the list of its own
    enumerable string-keyed properties in enumeration order.  Values are
    finite trees: object graphs with cycles, functions, symbols and
    objects carrying a [toJSON] method are outside this type. *)
Inductive JsValue : Type :=
  | JUndefined
  | JNull
  | JBoolean (b : bool)
  | JNumber (bits : Z)
  | JBigInt (z : Z)
  | JString (s : string)
  | JArray (elems : list JsValue)
  | JObject (props : list (string * JsValue)).

(** A [Response]: its status, the headers that the caller of the
    constructor passed, and its body ([None] for a response without
    body). *)
Record Response : Type := mkResponse {
  status : Z;
  headers : list (string * string);
  body : option string
}.

(** *** Strings *)

Definition dquote : ascii := ascii_of_nat 34.
Definition backslash : ascii := ascii_of_nat 92.

Definition hex_digit (n : nat) : ascii :=
  if Nat.ltb n 10 then ascii_of_nat (48 + n) else ascii_of_nat (87 + n).

(** One code unit of [QuoteJSONString]. *)
Definition quote_char (c : ascii) : string :=
  let n := nat_of_ascii c in
  if Nat.eqb n 8 then String backslash "b"
  else if Nat.eqb n 9 then String backslash "t"
  else if Nat.eqb n 10 then String backslash "n"
  else if Nat.eqb n 12 then String backslash "f"
  else if Nat.eqb n 13 then String backslash "r"
  else if Nat.eqb n 34 then String backslash (String dquote "")
  else if Nat.eqb n 92 then String backslash (String backslash "")
  else if Nat.ltb n 32 then
    String backslash
      ("u00" +:+ String (hex_digit (Nat.div n 16))
                  (String (hex_digit (Nat.modulo n 16)) ""))
  else String c "".

Fixpoint quote_chars (s : string) : string :=
  match s with
  | EmptyString => ""
  | String c rest => quote_char c +:+ quote_chars rest
  end.

Definition QuoteJSONString (s : string) : string :=
  String dquote (quote_chars s +:+ String dquote "").

(** [BigInt.prototype.toString()]: the decimal digits, with a leading
    minus sign for negative values. *)
Definition BigInt_toString (z : Z) : string :=
  NilZero.string_of_int (Z.to_int z).

(** [ToString(index)] for an array index. *)
Definition index_toString (i : nat) : string :=
  NilZero.string_of_uint (Nat.to_uint i).

Fixpoint join (sep : string) (parts : list string) : string :=
  match parts with
  | [] => ""
  | [p] => p
  | p :: rest => p +:+ sep +:+ join sep rest
  end.

(** *** [JSON.stringify] *)

(** Result of serialising one property: a JSON text, [undefined] (the
    property is skipped), the [TypeError] raised for a [bigint], or an
    exhausted recursion budget. *)
Inductive Ser : Type :=
  | SerText (s : string)
  | SerUndefined
  | SerTypeError
  | SerOutOfFuel.

(** An exponent field of all ones marks [NaN] and the infinities. *)
Definition Number_isFinite (bits : Z) : bool :=
  negb (Z.eqb (Z.land (Z.shiftr bits 52) 2047) 2047).

(** [SerializeJSONArray]: elements in index order; an element that
    serialises to [undefined] is written as [null]. *)
Fixpoint serialize_elements (ser : string -> JsValue -> Ser)
    (i : nat) (elems : list JsValue) : Ser + list string :=
  match elems with
  | [] => inr []
  | e :: rest =>
      match ser (index_toString i) e with
      | SerTypeError => inl SerTypeError
      | SerOutOfFuel => inl SerOutOfFuel
      | SerUndefined =>
          match serialize_elements ser (S i) rest with
          | inr parts => inr ("null" :: parts)
          | inl err => inl err
          end
      | SerText s =>
          match serialize_elements ser (S i) rest with
          | inr parts => inr (s :: parts)
          | inl err => inl err
          end
      end
  end.

(** [SerializeJSONObject]: properties in enumeration order; a property
    that serialises to [undefined] is left out. *)
Fixpoint serialize_members (ser : string -> JsValue -> Ser)
    (props : list (string * JsValue)) : Ser + list string :=
  match props with
  | [] => inr []
  | (k, v) :: rest =>
      match ser k v with
      | SerTypeError => inl SerTypeError
      | SerOutOfFuel => inl SerOutOfFuel
      | SerUndefined => serialize_members ser rest
      | SerText s =>
          match serialize_members ser rest with
          | inr parts => inr ((QuoteJSONString k +:+ ":" +:+ s) :: parts)
          | inl err => inl err
          end
      end
  end.

Definition Replacer : Type := string -> JsValue -> JsValue.

(** *** The [Response] constructor *)

(** The exceptions that the helpers can raise: the [TypeError] of
    [JSON.stringify] and of the [Response] constructor, and the
    [RangeError] of the constructor. *)
Inductive Thrown : Type := TypeError | RangeError.

(** A null body status: a response with such a status has no body. *)
Definition null_body_status (status : Z) : bool :=
  (Z.eqb status 101 || Z.eqb status 103 || Z.eqb status 204 ||
   Z.eqb status 205 || Z.eqb status 304)%bool.

(** The statuses that the constructor accepts: 200 to 599, and on a
    platform that says so (Deno does, the Fetch standard does not) also
    101. *)
Definition status_accepted (accepts_101 : bool) (status : Z) : bool :=
  ((Z.leb 200 status && Z.leb status 599) ||
   (accepts_101 && Z.eqb status 101))%bool.

(** [new Response(body, { status, headers })] for an integral status.
    The status is converted to an unsigned 16-bit integer; a status that
    is then not accepted raises a [RangeError]; a body given together
    with a null body status raises a [TypeError].  A body of [undefined]
    gives a response without body ([None]).  [headers] are those passed
    by the caller. *)
Definition new_Response (accepts_101 : bool) (body : option string)
    (status : Z) (headers : list (string * string)) : Response + Thrown :=
  let status16 := status mod 65536 in
  if status_accepted accepts_101 status16 then
    match body with
    | Some _ =>
        if null_body_status status16 then inr TypeError
        else inl (mkResponse status16 headers body)
    | None => inl (mkResponse status16 headers None)
    end
  else inr RangeError.

Section Stringify.

(** [Number::toString] for a finite double, given by its bits. *)
Variable Number_toString : Z -> string.

(** [SerializeJSONProperty(key, holder)] where [value] is
    [holder[key]].  The replacer may return any value, so the
    recursion is bounded by [fuel]. *)
Fixpoint SerializeJSONProperty (fuel : nat) (replacer : option Replacer)
    (key : string) (value : JsValue) : Ser :=
  match fuel with
  | O => SerOutOfFuel
  | S fuel' =>
      let value' :=
        match replacer with
        | Some f => f key value
        | None => value
        end in
      match value' with
      | JNull => SerText "null"
      | JBoolean true => SerText "true"
      | JBoolean false => SerText "false"
      | JString s => SerText (QuoteJSONString s)
      | JNumber bits =>
          SerText (if Number_isFinite bits then Number_toString bits
                   else "null")
      | JBigInt _ => SerTypeError
      | JArray elems =>
          match serialize_elements
                  (SerializeJSONProperty fuel' replacer) O elems with
          | inr parts => SerText ("[" +:+ join "," parts +:+ "]")
          | inl err => err
          end
      | JObject props =>
          match serialize_members
                  (SerializeJSONProperty fuel' replacer) props with
          | inr parts => SerText ("{" +:+ join "," parts +:+ "}")
          | inl err => err
          end
      | JUndefined => SerUndefined
      end
  end.

(** [JSON.stringify(value, replacer)]: the value is serialised as the
    property with the empty key of a wrapper object. *)
Definition JSON_stringify (fuel : nat) (value : JsValue)
    (replacer : option Replacer) : Ser :=
  SerializeJSONProperty fuel replacer "" value.

(** [const jsonReplacer = (_, value) =>
      typeof value === "bigint" ? value.toString() : value] *)
Definition jsonReplacer : Replacer := fun _ value =>
  match value with
  | JBigInt z => JString (BigInt_toString z)
  | _ => value
  end.

(** Whether the platform accepts the status 101. *)
Variable accepts_101 : bool.

(** [toJson(statusCode, body)]: the body is serialised first, then the
    response is built.  [None] stands for a recursion budget too small
    for the body. *)
Definition toJson (fuel : nat) (statusCode : Z) (body : JsValue)
    : option (Response + Thrown) :=
  match JSON_stringify fuel body (Some jsonReplacer) with
  | SerText s =>
      Some (new_Response accepts_101 (Some s) statusCode
              [("Content-Type", "application/json")])
  | SerUndefined =>
      Some (new_Response accepts_101 None statusCode
              [("Content-Type", "application/json")])
  | SerTypeError => Some (inr TypeError)
  | SerOutOfFuel => None
  end.

(** [toText(statusCode, text)] *)
Definition toText (statusCode : Z) (text : string) : Response + Thrown :=
  new_Response accepts_101 (Some text) statusCode
    [("Content-Type", "text/plain")].

(** [toHtml(statusCode, html)] *)
Definition toHtml (statusCode : Z) (html : string) : Response + Thrown :=
  new_Response accepts_101 (Some html) statusCode
    [("Content-Type", "text/html")].

End Stringify.

(** *** Reading a body *)




(** Whether a [bigint] occurs in a value, at any depth. *)
Fixpoint has_bigint (v : JsValue) : bool :=
  match v with
  | JBigInt _ => true
  | JArray elems => existsb has_bigint elems
  | JObject props => existsb (fun p => has_bigint (snd p)) props
  | _ => false
  end.

End Json.

(* ===================================================================== *)
(** ** The per-request key-value store                                    *)
(* ===================================================================== *)

Module UserData.
Import Json.

(** [createUserData()] closes [set], [get] and [del] over one private
    [Map<string, unknown>].  The map is passed explicitly: every
    operation takes the current map and, when it changes it, returns the
    new one. *)
Definition createUserData : gmap string JsValue := ∅.

(** [set = (key, value) => store.set(key, value)] *)
Definition set (key : string) (value : JsValue)
    (store : gmap string JsValue) : gmap string JsValue :=
  <[key := value]> store.

(** [get = (key) => store.get(key)]: [Map.prototype.get] answers
    [undefined] for a key that is not in the map. *)
Definition get (key : string) (store : gmap string JsValue) : JsValue :=
  match store !! key with
  | Some value => value
  | None => JUndefined
  end.

(** [del = (key) => store.delete(key)]: [true] iff the key was there. *)
Definition del (key : string) (store : gmap string JsValue)
    : bool * gmap string JsValue :=
  (bool_decide (is_Some (store !! key)), delete key store).

End UserData.

(* ===================================================================== *)
(** ** The router                                                         *)
(* ===================================================================== *)

Module Router.
Import Json.

(** *** Requests, contexts and the functions of the application *)

(** A thrown value, read as [err as Error]. *)
Record Error : Type := mkError { message : string }.

(** The part of the platform's [Request] that dispatch looks at. *)
Record Request : Type := mkRequest {
  request_method : string;
  request_url : string
}.

(** The captured groups of a successful [URLPattern.exec]. *)
Definition URLPatternResult : Type := list (string * string).

(** [Deno.ServeHandlerInfo], reduced to the remote address. *)
Definition ServeHandlerInfo : Type := string.

(** [Context].  The fields [log], [json], [text] and [html] are the same
    constants in every context ([log], [toJson], [toText], [toHtml]) and
    are not stored. *)
Record Context : Type := mkContext {
  request : Request;
  params : option URLPatternResult;
  info : option ServeHandlerInfo;
  userData : gmap string JsValue
}.

(** How a call ends once its promise, if any, has settled. *)
Inductive Completion (A : Type) : Type :=
  | Normal (a : A)
  | Throw (e : Error).
Arguments Normal {A} a.
Arguments Throw {A} e.

(** [Middleware = (ctx) => Promise<void>].  The context is one mutable
    object: a middleware returns it as it left it. *)
Definition Middleware : Type := Context -> Context * Completion unit.

(** [Handler = (ctx) => Response | Promise<Response>] *)
Definition Handler : Type := Context -> Context * Completion Response.

(** What a call of an [ErrorHandler] gives back to its caller: a
    [Response] (or a promise that fulfils with one), a promise that
    rejects, or an exception thrown before anything is returned. *)
Inductive ErrorHandlerResult : Type :=
  | EhResponse (r : Response)
  | EhRejected (e : Error)
  | EhThrows (e : Error).

(** [ErrorHandler = (ctx, err) => Response | Promise<Response>] *)
Definition ErrorHandler : Type :=
  Context -> Error -> Context * ErrorHandlerResult.

(** *** Observing one request *)

(** Every call of an application function made while a request is
    served, with the function called and the context as it was handed
    over. *)
Inductive Event : Type :=
  | MiddlewareCalled (mw : Middleware) (ctx : Context)
  | ErrorHandlerCalled (eh : ErrorHandler) (ctx : Context) (err : Error)
  | HandlerCalled (h : Handler) (ctx : Context).

(** The state threaded through the body of one dispatch: the context
    object and the calls made so far. *)
Record World : Type := mkWorld {
  ctx : Context;
  trace : list Event
}.

(** A computation inside an [async] function: it changes the world and
    either returns or throws. *)
Definition M (A : Type) : Type := World -> World * Completion A.

Definition ret {A : Type} (a : A) : M A := fun w => (w, Normal a).

Definition bind {A B : Type} (m : M A) (k : A -> M B) : M B := fun w =>
  match m w with
  | (w', Normal a) => k a w'
  | (w', Throw e) => (w', Throw e)
  end.

(** [try { body } catch (err) { handler(err) }] *)
Definition try_catch {A : Type} (body : M A) (handler : Error -> M A)
    : M A := fun w =>
  match body w with
  | (w', Normal a) => (w', Normal a)
  | (w', Throw e) => handler e w'
  end.

Notation "x <- m ;; k" := (bind m (fun x => k))
  (at level 100, m at next level, right associativity).
Notation "m ;;; k" := (bind m (fun _ => k))
  (at level 100, right associativity).

(** [await mw(ctx)] *)
Definition callMiddleware (mw : Middleware) : M unit := fun w =>
  let '(ctx', result) := mw (ctx w) in
  (mkWorld ctx' (trace w ++ [MiddlewareCalled mw (ctx w)]), result).

(** [handler(ctx)], returned from an [async] function: an exception and
    a rejected promise both reject the promise of the caller. *)
Definition callHandler (h : Handler) : M Response := fun w =>
  let '(ctx', result) := h (ctx w) in
  (mkWorld ctx' (trace w ++ [HandlerCalled h (ctx w)]), result).

(** [callErrorHandler(ctx, err)] as an expression statement: only an
    exception thrown by the call itself reaches the caller; the value,
    a [Response] or a promise in either state, is given back as it is. *)
Definition callErrorHandler (eh : ErrorHandler) (err : Error)
    : M ErrorHandlerResult := fun w =>
  let '(ctx', result) := eh (ctx w) err in
  let w' := mkWorld ctx' (trace w ++ [ErrorHandlerCalled eh (ctx w) err]) in
  match result with
  | EhThrows e => (w', Throw e)
  | _ => (w', Normal result)
  end.

(** [for (const mw of middlewares) { await mw(ctx); }] *)
Fixpoint forOf (middlewares : list Middleware) (body : Middleware -> M unit)
    : M unit :=
  match middlewares with
  | [] => ret tt
  | mw :: rest => body mw ;;; forOf rest body
  end.

(** [runMiddlewares(ctx, callErrorHandler, middlewares)]; the context is
    the one of the world.  The value of the error handler is dropped. *)
Definition runMiddlewares (eh : ErrorHandler)
    (middlewares : list Middleware) : M unit :=
  try_catch (forOf middlewares callMiddleware)
            (fun err => callErrorHandler eh err ;;; ret tt).

(** [createContext(request, params, info)] *)
Definition createContext (req : Request) (params : option URLPatternResult)
    (info : option ServeHandlerInfo) : Context :=
  mkContext req params info UserData.createUserData.

(** What the serve primitive sees of one dispatch, and the calls that
    were made to produce it. *)
Record Outcome : Type := mkOutcome {
  events : list Event;
  completion : Completion Response
}.

Definition run (m : M Response) (c : Context) : Outcome :=
  let '(w, result) := m (mkWorld c []) in mkOutcome (trace w) result.

(** *** Arrays of middlewares *)

(** Arrays are objects with identity: a variable or a closure holds a
    reference, and the contents live in a store shared by all holders. *)
Definition loc : Type := positive.

Definition read (arrays : gmap loc (list Middleware)) (l : loc)
    : list Middleware :=
  match arrays !! l with
  | Some contents => contents
  | None => []
  end.

(** An array literal [[...]]: a new array at a reference not in use. *)
Definition alloc (contents : list Middleware)
    (arrays : gmap loc (list Middleware))
    : loc * gmap loc (list Middleware) :=
  let l := fresh (dom arrays) in (l, <[l := contents]> arrays).

(** [array.push(...items)] *)
Definition push (l : loc) (items : list Middleware)
    (arrays : gmap loc (list Middleware)) : gmap loc (list Middleware) :=
  <[l := read arrays l ++ items]> arrays.

(** *** The two kinds of compiled handlers *)

(** The closure returned by [createRouterHandler(handler, errorHandler,
    middlewares)], given by what it captured. *)
Record RouterHandler : Type := createRouterHandler {
  rh_handler : Handler;
  rh_errorHandler : ErrorHandler;
  rh_middlewares : loc
}.

(** Calling that closure:
    [ctx = createContext(req, params, info);
     await runMiddlewares(ctx, errorHandler, middlewares);
     return handler(ctx)] *)
Definition callRouterHandler (arrays : gmap loc (list Middleware))
    (rh : RouterHandler) (req : Request) (params : option URLPatternResult)
    (info : option ServeHandlerInfo) : Outcome :=
  run (runMiddlewares (rh_errorHandler rh) (read arrays (rh_middlewares rh))
         ;;; callHandler (rh_handler rh))
      (createContext req params info).

(** A [denoHandler]: the initial value of [notFoundHandler], or a closure
    returned by [createDenoHandler(handler, errorHandler, middlewares)]. *)
Inductive denoHandler : Type :=
  | defaultNotFoundHandler
  | createDenoHandler (handler : Handler) (errorHandler : ErrorHandler)
      (middlewares : loc).

Definition callDenoHandler (arrays : gmap loc (list Middleware))
    (dh : denoHandler) (req : Request) (info : option ServeHandlerInfo)
    : Outcome :=
  match dh with
  | defaultNotFoundHandler =>
      mkOutcome [] (Normal (mkResponse 404 [] (Some "Not Found")))
  | createDenoHandler handler errorHandler middlewares =>
      run (runMiddlewares errorHandler (read arrays middlewares)
             ;;; callHandler handler)
          (createContext req None info)
  end.

(** *** The state of one router *)

(** A [URLPattern] built from [{ pathname: pattern }] is determined by
    its pathname pattern. *)
Record URLPattern : Type := mkURLPattern { pathname : string }.

(** [Route] of the routing module: the methods, the pattern and the
    compiled handler. *)
Record Route : Type := mkRoute {
  method : list string;
  pattern : URLPattern;
  handler : RouterHandler
}.

(** The variables that the functions returned by [router()] close over.
    [routes] and [globalMiddlewares] are [const] bindings of arrays:
    [globalMiddlewares] is the reference of an array in [arrays];
    [routes] holds the contents of the route array, which is only ever
    appended to and which the dispatch function reads on every request.
    [errorHandler] and [notFoundHandler] are [let] bindings. *)
Record RouterState : Type := mkRouterState {
  arrays : gmap loc (list Middleware);
  routes : list Route;
  globalMiddlewares : loc;
  errorHandler : ErrorHandler;
  notFoundHandler : denoHandler
}.

(** The initial [errorHandler]:
    [(_, err) => new Response(`Error: ${err.message}`, { status: 500 })] *)
Definition defaultErrorHandler : ErrorHandler := fun c err =>
  (c, EhResponse (mkResponse 500 [] (Some ("Error: " +:+ message err)))).

(** [router()]: the state right after the function has returned. *)
Definition router : RouterState :=
  let '(g, arrays0) := alloc [] ∅ in
  mkRouterState arrays0 [] g defaultErrorHandler defaultNotFoundHandler.

(** [onError = (handler) => { errorHandler = handler; }] *)
Definition onError (handler : ErrorHandler) (s : RouterState)
    : RouterState :=
  mkRouterState (arrays s) (routes s) (globalMiddlewares s) handler
                (notFoundHandler s).

(** [onNotFound = (handler) => { notFoundHandler =
      createDenoHandler(handler, errorHandler, [...globalMiddlewares]); }] *)
Definition onNotFound (handler : Handler) (s : RouterState) : RouterState :=
  let '(copy, arrays') :=
    alloc (read (arrays s) (globalMiddlewares s)) (arrays s) in
  mkRouterState arrays' (routes s) (globalMiddlewares s) (errorHandler s)
                (createDenoHandler handler (errorHandler s) copy).

(** [use = (...middlewares) => { globalMiddlewares.push(...middlewares); }] *)
Definition use (middlewares : list Middleware) (s : RouterState)
    : RouterState :=
  mkRouterState (push (globalMiddlewares s) middlewares (arrays s))
                (routes s) (globalMiddlewares s) (errorHandler s)
                (notFoundHandler s).

(** [String.prototype.toUpperCase] on the letters a to z. *)
Definition upper_char (c : ascii) : ascii :=
  let n := nat_of_ascii c in
  if (Nat.leb 97 n && Nat.leb n 122)%bool then ascii_of_nat (n - 32) else c.

Fixpoint toUpperCase (s : string) : string :=
  match s with
  | EmptyString => EmptyString
  | String c rest => String (upper_char c) (toUpperCase rest)
  end.

(** The registration functions of the returned object:
    [get: factory("get")], [post: factory("post")], ... *)
Inductive Verb : Type := get | post | put | delete | patch.

Definition verb_name (v : Verb) : string :=
  match v with
  | get => "get"
  | post => "post"
  | put => "put"
  | delete => "delete"
  | patch => "patch"
  end.

(** One call on the object returned by [router()]. *)
Inductive Call : Type :=
  | CallUse (middlewares : list Middleware)
  | CallOnError (handler : ErrorHandler)
  | CallOnNotFound (handler : Handler)
  | CallVerb (v : Verb) (pattern : string) (handler : Handler)
      (middlewares : list Middleware).

Section Registration.

(** [new URLPattern({ pathname: pattern })] throws a [TypeError] for a
    pattern it cannot parse; [URLPattern_valid] tells whether it
    returns. *)
Variable URLPattern_valid : string -> bool.

(** [factory(method)(pattern, handler, ...middlewares)].  The pattern
    is built before the handler is compiled; when it throws nothing
    has been pushed and the result is [None]. *)
Definition factory (method : string) (pattern : string)
    (handler : Handler) (middlewares : list Middleware)
    (s : RouterState) : option RouterState :=
  if URLPattern_valid pattern then
    let '(chain, arrays') :=
      alloc (read (arrays s) (globalMiddlewares s) ++ middlewares)
            (arrays s) in
    Some (mkRouterState arrays'
            (routes s ++
               [mkRoute [toUpperCase method] (mkURLPattern pattern)
                  (createRouterHandler handler (errorHandler s) chain)])
            (globalMiddlewares s) (errorHandler s) (notFoundHandler s))
  else None.

(** The state after a call; a registration that throws leaves the
    state as it was. *)
Definition call (c : Call) (s : RouterState) : RouterState :=
  match c with
  | CallUse middlewares => use middlewares s
  | CallOnError handler => onError handler s
  | CallOnNotFound handler => onNotFound handler s
  | CallVerb v pattern handler middlewares =>
      match factory (verb_name v) pattern handler middlewares s with
      | Some s' => s'
      | None => s
      end
  end.

(** A program that makes the calls one after the other. *)
Fixpoint calls (cs : list Call) (s : RouterState) : RouterState :=
  match cs with
  | [] => s
  | c :: rest => calls rest (call c s)
  end.

End Registration.

Section Dispatch.

(** [pattern.exec(url)]: the captured groups, or [None] for [null]. *)
Variable URLPattern_exec : URLPattern -> string -> option URLPatternResult.

(** Modelled from the spec: the matching test of the imported [route]
    function.  A route matches a request iff the request method is in
    its method set and its pattern matches the URL; a match produces the
    captured groups. *)
Definition route_match (r : Route) (req : Request)
    : option URLPatternResult :=
  if bool_decide (request_method req ∈ method r)
  then URLPattern_exec (pattern r) (request_url req)
  else None.

(** Modelled from the spec: [route(routes, defaultHandler)] is imported
    from the [@std/http] routing module and is not part of the source
    file.  The spec gives its algorithm: scan the table in registration
    order; the first route whose method set contains the request method
    and whose pattern matches wins and its handler is called with the
    captured groups; if no route matches, control passes to the default
    handler. *)
Fixpoint route_select (routes : list Route) (req : Request)
    : option (Route * URLPatternResult) :=
  match routes with
  | [] => None
  | r :: rest =>
      match route_match r req with
      | Some groups => Some (r, groups)
      | None => route_select rest req
      end
  end.

(** Modelled from the spec: the dispatch function that
    [route(routes, defaultHandler)] returns.  It reads the route array
    at every request. *)
Definition route (arrays : gmap loc (list Middleware))
    (routes : list Route) (defaultHandler : denoHandler)
    (req : Request) (info : option ServeHandlerInfo) : Outcome :=
  match route_select routes req with
  | Some (r, groups) =>
      callRouterHandler arrays (handler r) req (Some groups) info
  | None => callDenoHandler arrays defaultHandler req info
  end.

(** [listen()] hands [route(routes, notFoundHandler)] to [Deno.serve].
    The call evaluates [notFoundHandler] once; the array [routes] is
    passed by reference.  A server is the not-found handler it got. *)
Record Server : Type := mkServer { server_default : denoHandler }.

Definition listen (s : RouterState) : Server :=
  mkServer (notFoundHandler s).

(** One request arriving at a server while the router is in state
    [now]. *)
Definition serve (srv : Server) (now : RouterState)
    (req : Request) (info : option ServeHandlerInfo) : Outcome :=
  route (arrays now) (routes now) (server_default srv) req info.

End Dispatch.

(** *** Reading a trace *)

Definition middleware_calls (evs : list Event)
    : list (Middleware * Context) :=
  omap (fun e => match e with
                 | MiddlewareCalled mw c => Some (mw, c)
                 | _ => None
                 end) evs.

Definition error_handler_calls (evs : list Event)
    : list (ErrorHandler * Context * Error) :=
  omap (fun e => match e with
                 | ErrorHandlerCalled eh c err => Some (eh, c, err)
                 | _ => None
                 end) evs.

Definition handler_calls (evs : list Event) : list (Handler * Context) :=
  omap (fun e => match e with
                 | HandlerCalled h c => Some (h, c)
                 | _ => None
                 end) evs.

(** The global middlewares a program has registered, in the order of its
    [use] calls. *)
Fixpoint used (cs : list Call) : list Middleware :=
  match cs with
  | [] => []
  | CallUse middlewares :: rest => middlewares ++ used rest
  | _ :: rest => used rest
  end.

Definition is_onError (c : Call) : bool :=
  match c with CallOnError _ => true | _ => false end.

Definition is_onNotFound (c : Call) : bool :=
  match c with CallOnNotFound _ => true | _ => false end.

Definition is_use (c : Call) : bool :=
  match c with CallUse _ => true | _ => false end.

(** The declared order, in the words of the specification: starting from
    a context, the middlewares of a chain run one after the other, each
    on the context the previous one left, and nothing runs after one
    that fails. *)
Inductive InDeclaredOrder
    : Context -> list Middleware -> list (Middleware * Context) -> Prop :=
  | ido_end (c : Context) : InDeclaredOrder c [] []
  | ido_next (c c' : Context) (mw : Middleware) (rest : list Middleware)
      (after : list (Middleware * Context)) :
      mw c = (c', Normal tt) ->
      InDeclaredOrder c' rest after ->
      InDeclaredOrder c (mw :: rest) ((mw, c) :: after)
  | ido_fail (c c' : Context) (e : Error) (mw : Middleware)
      (rest : list Middleware) :
      mw c = (c', Throw e) ->
      InDeclaredOrder c (mw :: rest) [(mw, c)].

(** The last [onNotFound] call of a program: the calls made before it
    and the handler it was given. *)
Fixpoint last_onNotFound (cs : list Call) : option (list Call * Handler) :=
  match cs with
  | [] => None
  | c :: rest =>
      match last_onNotFound rest with
      | Some (before, h) => Some (c :: before, h)
      | None =>
          match c with
          | CallOnNotFound h => Some ([], h)
          | _ => None
          end
      end
  end.

(** *** The body of a compiled handler in closed form *)

Definition middleware_event (mc : Middleware * Context) : Event :=
  MiddlewareCalled (fst mc) (snd mc).

(** The loop of [runMiddlewares] on its own: the context it leaves, the
    calls it makes and the error that stopped it, if any. *)
Fixpoint loop (c : Context) (middlewares : list Middleware)
    : Context * list (Middleware * Context) * option Error :=
  match middlewares with
  | [] => (c, [], None)
  | mw :: rest =>
      match mw c with
      | (c', Normal _) =>
          let '(c'', mcs, stopped) := loop c' rest in
          (c'', (mw, c) :: mcs, stopped)
      | (c', Throw e) => (c', [(mw, c)], Some e)
      end
  end.

(** What [await runMiddlewares(...); return handler(ctx)] amounts to. *)
Definition compiled (eh : ErrorHandler) (middlewares : list Middleware)
    (h : Handler) (c : Context) : Outcome :=
  let '(c1, mcs, stopped) := loop c middlewares in
  match stopped with
  | None =>
      mkOutcome (map middleware_event mcs ++ [HandlerCalled h c1])
                (snd (h c1))
  | Some err =>
      match eh c1 err with
      | (_, EhThrows e) =>
          mkOutcome (map middleware_event mcs ++
                       [ErrorHandlerCalled eh c1 err])
                    (Throw e)
      | (c2, _) =>
          mkOutcome (map middleware_event mcs ++
                       [ErrorHandlerCalled eh c1 err; HandlerCalled h c2])
                    (snd (h c2))
      end
  end.

(** *** Where the compiled handlers of a state come from *)

Section Provenance.

Variable URLPattern_valid : string -> bool.

(** In the state [s] reached by the program [prog], the route [r] at
    index [i] of the table is the one pushed by a registration call of
    [prog]: the call that found [i] routes in the table.  Its handler
    closes over the error handler of that moment and over an array of
    its own that holds the global middlewares used before the call
    followed by the middlewares passed to it. *)
Definition registered_by (prog : list Call) (s : RouterState)
    (i : nat) (r : Route) : Prop :=
  exists (before : list Call) (v : Verb) (pat : string) (h : Handler)
         (ms : list Middleware) (after : list Call),
    prog = before ++ CallVerb v pat h ms :: after /\
    URLPattern_valid pat = true /\
    length (routes (calls URLPattern_valid before router)) = i /\
    method r = [toUpperCase (verb_name v)] /\
    pattern r = mkURLPattern pat /\
    rh_handler (handler r) = h /\
    rh_errorHandler (handler r) =
      errorHandler (calls URLPattern_valid before router) /\
    read (arrays s) (rh_middlewares (handler r)) = used before ++ ms /\
    rh_middlewares (handler r) ∈ dom (arrays s) /\
    rh_middlewares (handler r) <> globalMiddlewares s.

(** In the state [s] reached by the program [prog], the not-found
    handler is the initial one when [prog] never calls [onNotFound],
    and otherwise the closure compiled by its last [onNotFound] call,
    over the error handler of that moment and over an array of its own
    that holds the global middlewares used before the call. *)
Definition not_found_compiled_by (prog : list Call) (s : RouterState)
    : Prop :=
  match last_onNotFound prog with
  | None => notFoundHandler s = defaultNotFoundHandler
  | Some (before, h) =>
      exists l : loc,
        notFoundHandler s =
          createDenoHandler h
            (errorHandler (calls URLPattern_valid before router)) l /\
        read (arrays s) l = used before /\
        l ∈ dom (arrays s) /\
        l <> globalMiddlewares s
  end.

End Provenance.

(** *** More ways to read a trace and a program *)

(** The context that a call was given. *)
Definition event_ctx (e : Event) : Context :=
  match e with
  | MiddlewareCalled _ c => c
  | ErrorHandlerCalled _ c _ => c
  | HandlerCalled _ c => c
  end.

(** Whether every middleware of a chain completes, each one on the
    context left by the one before it. *)
Fixpoint succeeds (c : Context) (middlewares : list Middleware) : bool :=
  match middlewares with
  | [] => true
  | mw :: rest =>
      match mw c with
      | (c', Normal _) => succeeds c' rest
      | (_, Throw _) => false
      end
  end.

(** The context after the middlewares of a chain have worked on it one
    after the other. *)
Definition thread (c : Context) (middlewares : list Middleware) : Context :=
  foldl (fun c mw => fst (mw c)) c middlewares.

Definition is_verb (c : Call) : bool :=
  match c with CallVerb _ _ _ _ => true | _ => false end.

(** What a user sees of a route: its methods, its pattern and the
    handler it was registered with. *)
Definition route_summary (r : Route) : list string * URLPattern * Handler :=
  (method r, pattern r, rh_handler (handler r)).

(** The methods of the five registration functions, as [factory] writes
    them into a route. *)
Definition registered_methods : list string :=
  map (fun v => toUpperCase (verb_name v)) [get; post; put; delete; patch].

Section Table.

Variable URLPattern_valid : string -> bool.

(** The route that a call adds to the table, if it adds one. *)
Definition registration (c : Call)
    : option (list string * URLPattern * Handler) :=
  match c with
  | CallVerb v pat h _ =>
      if URLPattern_valid pat
      then Some ([toUpperCase (verb_name v)], mkURLPattern pat, h)
      else None
  | _ => None
  end.

End Table.

End Router.

(* ===================================================================== *)
(** ** Start-up: log level and listen options                             *)
(* ===================================================================== *)

Module Startup.

(** [Deno.env.get(name)]: the value of a variable, [None] for
    [undefined]. *)
Definition Env : Type := string -> option string.

(** [value || fallback] for a string that may be [undefined]: both
    [undefined] and the empty string are falsy. *)
Definition or_else (value : option string) (fallback : string) : string :=
  match value with
  | Some s => if String.eqb s "" then fallback else s
  | None => fallback
  end.

(** The members of [Severity] that the source uses. *)
Inductive Severity : Type := Info | Warn | Error.

(** [const logLevel = Deno.env.get("LOG_LEVEL") || "info"] *)
Definition logLevel (env : Env) : string :=
  or_else (env "LOG_LEVEL") "info".

(** [let severity = Severity.Info; switch (logLevel) { ... }] *)
Definition severity (env : Env) : Severity :=
  let level := logLevel env in
  if String.eqb level "info" then Info
  else if String.eqb level "warn" then Warn
  else if String.eqb level "error" then Error
  else Info.

(** A port as [Deno.serve] gets it: the cast [as number] converts
    nothing, so a port taken from the environment is still a string. *)
Inductive Port : Type :=
  | PortNumber (n : Z)
  | PortString (s : string).

(** An [onListen] callback, by the lines it logs at level info when it
    is told the address. *)
Definition OnListen : Type := string -> Z -> list string.

(** The callback of the router:
    [({ hostname, port }) => { log.info(`Listening to ${hostname}:${port}`) }] *)
Definition logListening : OnListen := fun hostname port =>
  ["Listening to " +:+ hostname +:+ ":" +:+ Json.BigInt_toString port].

(** The fields of [Deno.ServeOptions] that [listen] also sets itself;
    [None] is a field that the caller left out.  The remaining fields
    are handed on as they are and are not kept here. *)
Record ServeOptions : Type := mkServeOptions {
  o_hostname : option string;
  o_port : option Z;
  o_onListen : option OnListen
}.

(** The object given to [Deno.serve]. *)
Record ServeInit : Type := mkServeInit {
  hostname : string;
  port : Port;
  handler : Router.Server;
  onListen : OnListen
}.

(** [{ ...base, ...options }] on one field. *)
Definition spread {A : Type} (base : A) (given : option A) : A :=
  match given with
  | Some a => a
  | None => base
  end.

(** [listen(options?)]: the object built for [Deno.serve].
    [hostname: Deno.env.get("LISTEN_HOST") || "0.0.0.0",
     port: (Deno.env.get("PORT") || 8000) as number,
     handler: route(routes, notFoundHandler),
     onListen: ..., ...options] *)
Definition listen (env : Env) (options : option ServeOptions)
    (s : Router.RouterState) : ServeInit :=
  let hostname0 := or_else (env "LISTEN_HOST") "0.0.0.0" in
  let port0 :=
    match env "PORT" with
    | Some p => if String.eqb p "" then PortNumber 8000 else PortString p
    | None => PortNumber 8000
    end in
  match options with
  | None => mkServeInit hostname0 port0 (Router.listen s) logListening
  | Some o =>
      mkServeInit (spread hostname0 (o_hostname o))
                  (spread port0 (option_map PortNumber (o_port o)))
                  (Router.listen s)
                  (spread logListening (o_onListen o))
  end.

(** The environment in which every variable set to the empty string is
    not set at all. *)
Definition without_empty (env : Env) : Env := fun name =>
  match env name with
  | Some s => if String.eqb s "" then None else Some s
  | None => None
  end.

End Startup.

(* ===================================================================== *)
(** ** Concrete applications                                              *)
(* ===================================================================== *)

Module Examples.
Import Json Router.

(** A platform in which every pattern is accepted and a pattern matches
    the URLs of [localhost] with exactly that path. *)
Definition any_pattern (_ : string) : bool := true.

Definition literal_exec (p : URLPattern) (url : string)
    : option URLPatternResult :=
  if String.eqb url ("http://localhost" +:+ pathname p) then Some []
  else None.

Definition GET (path : string) : Request :=
  mkRequest "GET" ("http://localhost" +:+ path).

(** The middleware of the README on a request without an
    [Authorization] header: [throw new Error("Unauthorized")]. *)
Definition requireAuthorization : Middleware := fun c =>
  (c, Throw (mkError "Unauthorized")).

(** A middleware that records its passage in the user data. *)
Definition mark (key : string) : Middleware := fun c =>
  (mkContext (request c) (params c) (info c)
     (UserData.set key (JBoolean true) (userData c)),
   Normal tt).

(** [return <helper>(...)] in a handler: the response, or the exception
    of the helper. *)
Definition returning (r : Response + Thrown) : Completion Response :=
  match r with
  | inl response => Normal response
  | inr TypeError => Throw (mkError "TypeError")
  | inr RangeError => Throw (mkError "RangeError")
  end.

(** The helpers on Deno, which accepts the status 101. *)
Definition text : Z -> string -> Response + Thrown := toText true.
Definition html : Z -> string -> Response + Thrown := toHtml true.

(** The handler of the README: [ctx.text("Hello world!")], here with
    status 200. *)
Definition hello : Handler := fun c =>
  (c, returning (text 200 "Hello world!")).

Definition other : Handler := fun c =>
  (c, returning (text 200 "other")).

Definition broken : Handler := fun c =>
  (c, Throw (mkError "boom")).

Definition notFoundPage : Handler := fun c =>
  (c, returning (html 404 "<h1>Nothing here</h1>")).

Definition teapot : ErrorHandler := fun c err =>
  (c, match text 418 (message err) with
      | inl response => EhResponse response
      | inr _ => EhThrows (mkError "RangeError")
      end).

(** The application of the README: one global middleware, one route. *)
Definition readme : list Call :=
  [CallUse [requireAuthorization]; CallVerb get "/" hello []].

(** The route that the README application registers. *)
Definition readme_route : Route :=
  mkRoute ["GET"] (mkURLPattern "/")
    (createRouterHandler hello defaultErrorHandler 2%positive).

(** Two routes for the same method and path. *)
Definition two_routes : list Call :=
  [CallVerb get "/" hello []; CallVerb get "/" other []].

(** One global middleware, then a not-found page. *)
Definition with_not_found : list Call :=
  [CallUse [mark "a"]; CallOnNotFound notFoundPage].

(** A route whose handler fails, with an empty chain. *)
Definition broken_route : RouterHandler :=
  createRouterHandler broken defaultErrorHandler 1%positive.

(** A middleware that fails, once [mark "a"] has run before it. *)
Definition failing : Middleware := fun c =>
  (c, Throw (mkError "no")).

(** An error handler that throws instead of answering. *)
Definition throwing : ErrorHandler := fun c err =>
  (c, EhThrows (mkError "handler of errors failed")).

(** A handler that answers with what the middlewares left in the user
    data under the key [a]. *)
Definition report : Handler := fun c =>
  (c, returning (text 200
                   (match UserData.get "a" (userData c) with
                    | JBoolean true => "marked"
                    | _ => "unmarked"
                    end))).

(** A route with a middleware of its own, and a global middleware that
    is registered only afterwards. *)
Definition late_use : list Call :=
  [CallVerb get "/" hello [mark "r"]; CallUse [requireAuthorization]].

(** Two global middlewares, then a route with three middlewares of its
    own, the second of which fails. *)
Definition layered : list Call :=
  [CallUse [mark "g1"]; CallUse [mark "g2"];
   CallVerb get "/" hello [mark "r1"; failing; mark "r3"]].

(** The route that [layered] registers. *)
Definition layered_route : Route :=
  mkRoute ["GET"] (mkURLPattern "/")
    (createRouterHandler hello defaultErrorHandler 2%positive).

(** A store with one array, at the first reference. *)
Definition one_array (middlewares : list Middleware)
    : gmap loc (list Middleware) :=
  {[1%positive := middlewares]}.

(** An environment in which only [PORT] is set. *)
Definition production : Startup.Env := fun name =>
  if String.eqb name "PORT" then Some "8080" else None.

End Examples.

(* ===================================================================== *)
(** ** Properties of the response helpers                                 *)
(* ===================================================================== *)

Module JsonSpec.
Import Json.

#[local] Arguments Number_isFinite : simpl never.
#[local] Arguments BigInt_toString : simpl never.
#[local] Arguments QuoteJSONString : simpl never.
#[local] Arguments index_toString : simpl never.

(** The string that [BigInt.prototype.toString] gives is the decimal
    notation of the integer: read as a decimal number it is the integer
    again, with nothing cut off or altered. *)
Lemma BigInt_toString_reads_back (z : Z) :
  option_map Z.of_int (NilZero.int_of_string (BigInt_toString z)) = Some z.
Proof.
  unfold BigInt_toString.
  destruct z as [|p|p].
  - reflexivity.
  - rewrite NilZero.isi.
    + simpl. f_equal. apply (DecimalZ.of_to (Zpos p)).
    + simpl. intros [= H]. exact (DecimalPos.Unsigned.to_uint_nonnil p H).
    + discriminate.
  - rewrite NilZero.isi.
    + simpl. f_equal. apply (DecimalZ.of_to (Zneg p)).
    + discriminate.
    + simpl. intros [= H]. exact (DecimalPos.Unsigned.to_uint_nonnil p H).
Qed.





Section WithNumbers.

Variable Number_toString : Z -> string.


(** The constructor takes a status from 200 to 599 as it is, and
    refuses a body only for a null body status. *)
Lemma new_Response_ok (accepts_101 : bool) (body : option string)
    (statusCode : Z) (hs : list (string * string)) :
  200 <= statusCode <= 599 ->
  null_body_status statusCode = false ->
  new_Response accepts_101 body statusCode hs =
    inl (mkResponse statusCode hs body).
Proof.
  intros Hrange Hnull. unfold new_Response.
  rewrite Z.mod_small by lia.
  assert (status_accepted accepts_101 statusCode = true) as ->.
  { unfold status_accepted.
    assert (Z.leb 200 statusCode = true) as -> by (apply Z.leb_le; lia).
    assert (Z.leb statusCode 599 = true) as -> by (apply Z.leb_le; lia).
    reflexivity. }
  rewrite Hnull. by destruct body.
Qed.

(** The responses that the default handlers build pass the constructor
    as they are. *)
Lemma default_responses_are_constructed (accepts_101 : bool) (s : string) :
  new_Response accepts_101 (Some s) 500 [] = inl (mkResponse 500 [] (Some s))
  /\
  new_Response accepts_101 (Some s) 404 [] = inl (mkResponse 404 [] (Some s)).
Proof. split; by apply new_Response_ok. Qed.

Variable accepts_101 : bool.


End WithNumbers.

(** The example of the specification: [json(200, {n: 9007199254740993n})]. *)
Example toJson_large_integer :
  toJson (fun _ => "") true 2 200
    (JObject [("n", JBigInt 9007199254740993)]) =
    Some (inl (mkResponse 200 [("Content-Type", "application/json")]
                 (Some ("{" +:+ QuoteJSONString "n" +:+ ":" +:+
                          QuoteJSONString "9007199254740993" +:+ "}")))).
Proof. reflexivity. Qed.

(** Without the replacer the same body cannot be serialised. *)
Example JSON_stringify_bigint_without_replacer :
  JSON_stringify (fun _ => "") 2 (JObject [("n", JBigInt 9007199254740993)])
    None = SerTypeError.
Proof. reflexivity. Qed.

(** [text(201, "ok")] *)
Example toText_example :
  toText true 201 "ok" =
    inl (mkResponse 201 [("Content-Type", "text/plain")] (Some "ok")).
Proof. reflexivity. Qed.




(** *** The replacer on bodies with and without [bigint] *)

Lemma quote_chars_uint (d : Decimal.uint) :
  quote_chars (NilEmpty.string_of_uint d) = NilEmpty.string_of_uint d.
Proof. induction d; simpl; try reflexivity; by rewrite IHd. Qed.

(** The decimal notation of an integer has nothing to escape. *)
Lemma quote_chars_BigInt_toString (z : Z) :
  quote_chars (BigInt_toString z) = BigInt_toString z.
Proof.
  unfold BigInt_toString.
  destruct (Z.to_int z) as [d|d]; simpl.
  - destruct d; try reflexivity; apply quote_chars_uint.
  - change (quote_char "-"%char) with "-". simpl. f_equal.
    destruct d; try reflexivity; apply quote_chars_uint.
Qed.

Lemma serialize_elements_ext (ser1 ser2 : string -> JsValue -> Ser)
    (elems : list JsValue) :
  Forall (fun e => forall k, ser1 k e = ser2 k e) elems ->
  forall i, serialize_elements ser1 i elems = serialize_elements ser2 i elems.
Proof.
  induction 1 as [|e rest He _ IH]; intros i; simpl; [done|].
  by rewrite He, IH.
Qed.

Lemma serialize_members_ext (ser1 ser2 : string -> JsValue -> Ser)
    (props : list (string * JsValue)) :
  Forall (fun p => forall k, ser1 k (snd p) = ser2 k (snd p)) props ->
  serialize_members ser1 props = serialize_members ser2 props.
Proof.
  induction 1 as [|[k v] rest He _ IH]; simpl; [done|].
  simpl in He. by rewrite He, IH.
Qed.

Lemma existsb_false_Forall {A : Type} (f : A -> bool) (l : list A) :
  existsb f l = false -> Forall (fun x => f x = false) l.
Proof.
  induction l as [|x l IH]; simpl; intros H; constructor.
  - by destruct (f x).
  - apply IH. by destruct (f x).
Qed.

Section Replacer.

Variable Number_toString : Z -> string.

Lemma SerializeJSONProperty_no_bigint (fuel : nat) :
  forall (key : string) (v : JsValue),
    has_bigint v = false ->
    SerializeJSONProperty Number_toString fuel (Some jsonReplacer) key v =
      SerializeJSONProperty Number_toString fuel None key v.
Proof.
  induction fuel as [|fuel IH]; intros key v Hv; [reflexivity|].
  destruct v as [| |b|bits|z|s|elems|props]; try reflexivity.
  - discriminate.
  - simpl in *. apply existsb_false_Forall in Hv.
    rewrite (serialize_elements_ext
               (SerializeJSONProperty Number_toString fuel
                  (Some jsonReplacer))
               (SerializeJSONProperty Number_toString fuel None)); [done|].
    eapply Forall_impl; [exact Hv|]. intros e He k. by apply IH.
  - simpl in *. apply existsb_false_Forall in Hv.
    rewrite (serialize_members_ext
               (SerializeJSONProperty Number_toString fuel
                  (Some jsonReplacer))
               (SerializeJSONProperty Number_toString fuel None)); [done|].
    eapply Forall_impl; [exact Hv|]. intros p Hp k. by apply IH.
Qed.

Variable accepts_101 : bool.

(** X1.  For a status code from 200 to 599 that is not a null body
    status, a body that is a [bigint] is answered with the decimal
    digits of the integer between two double quotes, nothing escaped,
    under the given status and the JSON content type. *)
Theorem toJson_bigint_is_quoted_decimal
    (statusCode z : Z) (extra : nat) :
  200 <= statusCode <= 599 ->
  null_body_status statusCode = false ->
  toJson Number_toString accepts_101 (S extra) statusCode (JBigInt z) =
    Some (inl (mkResponse statusCode
                 [("Content-Type", "application/json")]
                 (Some (String dquote
                          (BigInt_toString z +:+ String dquote ""))))).
Proof.
  intros Hrange Hnull. unfold toJson, JSON_stringify. simpl.
  rewrite new_Response_ok by done.
  unfold QuoteJSONString. by rewrite quote_chars_BigInt_toString.
Qed.

(** X2.  For a body in which no [bigint] occurs the replacer changes
    nothing: serialising with it gives what [JSON.stringify] gives
    without a replacer, whatever the budget, and for a status code from
    200 to 599 that is not a null body status [toJson] answers with that
    text under that status. *)
Theorem toJson_without_bigint_is_plain_stringify
    (fuel : nat) (statusCode : Z) (body : JsValue) (text : string) :
  has_bigint body = false ->
  200 <= statusCode <= 599 ->
  null_body_status statusCode = false ->
  JSON_stringify Number_toString fuel body None = SerText text ->
  JSON_stringify Number_toString fuel body (Some jsonReplacer) =
    JSON_stringify Number_toString fuel body None /\
  toJson Number_toString accepts_101 fuel statusCode body =
    Some (inl (mkResponse statusCode
                 [("Content-Type", "application/json")] (Some text))).
Proof.
  intros Hv Hrange Hnull Htext. unfold toJson, JSON_stringify in *.
  rewrite SerializeJSONProperty_no_bigint, Htext by done.
  by rewrite new_Response_ok.
Qed.

End Replacer.

Lemma toJson_bigint_is_quoted_decimal_witness :
  200 <= 200 <= 599 /\
  null_body_status 200 = false /\
  toJson (fun _ => "") true 1 200 (JBigInt 9007199254740993) =
    Some (inl (mkResponse 200 [("Content-Type", "application/json")]
                 (Some (String dquote
                          (BigInt_toString 9007199254740993 +:+
                             String dquote ""))))).
Proof.
  assert (200 <= 200 <= 599) as Hrange by lia.
  split; [exact Hrange|]. split; [reflexivity|].
  exact (toJson_bigint_is_quoted_decimal (fun _ => "") true 200
           9007199254740993 O Hrange eq_refl).
Defined.

Lemma toJson_without_bigint_is_plain_stringify_witness :
  has_bigint (JObject [("a", JArray [JNull; JString "x"])]) = false /\
  200 <= 200 <= 599 /\
  null_body_status 200 = false /\
  JSON_stringify (fun _ => "") 3
    (JObject [("a", JArray [JNull; JString "x"])]) (Some jsonReplacer) =
  JSON_stringify (fun _ => "") 3
    (JObject [("a", JArray [JNull; JString "x"])]) None.
Proof.
  assert (200 <= 200 <= 599) as Hrange by lia.
  split; [reflexivity|]. split; [exact Hrange|]. split; [reflexivity|].
  exact (proj1 (toJson_without_bigint_is_plain_stringify (fun _ => "") true
                  3 200 (JObject [("a", JArray [JNull; JString "x"])])
                  _ eq_refl Hrange eq_refl eq_refl)).
Defined.

End JsonSpec.

(* ===================================================================== *)
(** ** Properties of the user data store                                  *)
(* ===================================================================== *)

Module UserDataSpec.
Import Json UserData.

(** C9.  In every store, for every key and value: [get] after [set]
    returns the value; [del] after [set] returns [true] and a second
    [del] right after it returns [false]; and [get] for a key that is
    not in the store (the store is new, or the key has just been
    deleted) returns [undefined].  All three operations are total
    functions, so none of them throws. *)
Theorem userData_set_get_del
    (key : string) (value : JsValue) (store : gmap string JsValue) :
  get key (set key value store) = value /\
  fst (del key (set key value store)) = true /\
  fst (del key (snd (del key (set key value store)))) = false /\
  get key createUserData = JUndefined /\
  get key (snd (del key store)) = JUndefined.
Proof.
  unfold get, set, del, createUserData; simpl.
  rewrite lookup_insert_eq, lookup_empty, !lookup_delete_eq.
  repeat split.
Qed.


(** X3.  The last [set] for a key wins: an earlier value for the same key
    leaves no trace in the store. *)
Theorem set_overwrites
    (key : string) (v1 v2 : JsValue) (store : gmap string JsValue) :
  set key v2 (set key v1 store) = set key v2 store /\
  get key (set key v2 (set key v1 store)) = v2.
Proof.
  unfold set, get. rewrite insert_insert_eq, lookup_insert_eq. done.
Qed.

(** X4.  Keys do not interfere: setting or deleting one key changes neither
    what [get] returns for another key nor whether [del] finds it. *)
Theorem other_keys_are_untouched
    (key other : string) (value : JsValue) (store : gmap string JsValue) :
  key <> other ->
  get other (set key value store) = get other store /\
  get other (snd (del key store)) = get other store /\
  fst (del other (set key value store)) = fst (del other store) /\
  fst (del other (snd (del key store))) = fst (del other store).
Proof.
  intros Hne. unfold set, get, del. simpl.
  by rewrite lookup_insert_ne, lookup_delete_ne.
Qed.

Lemma other_keys_are_untouched_witness :
  "a" <> "b" /\
  get "b" (set "a" JNull (set "b" (JBoolean true) createUserData)) =
    get "b" (set "b" (JBoolean true) createUserData).
Proof.
  assert ("a" <> "b") as Hne by discriminate.
  split; [exact Hne|].
  exact (proj1 (other_keys_are_untouched "a" "b" JNull
                  (set "b" (JBoolean true) createUserData) Hne)).
Defined.

(** X5.  A key stored with the value [undefined] reads like a key that is
    not there, but it is there: [get] returns [undefined] in both cases,
    while [del] returns [true] for the stored key and [false] for the
    missing one. *)
Theorem stored_undefined_is_present
    (key : string) (store : gmap string JsValue) :
  get key (set key JUndefined store) = get key (snd (del key store)) /\
  fst (del key (set key JUndefined store)) = true /\
  fst (del key (snd (del key store))) = false.
Proof.
  unfold set, get, del. simpl.
  by rewrite lookup_insert_eq, lookup_delete_eq.
Qed.

(** X6.  [del] for a key that is not in the store returns [false] and
    leaves the store as it was; [del] for a key that is there returns
    [true], and setting the key again to the value it had gives the
    store back. *)
Theorem del_missing_and_present
    (key : string) (store : gmap string JsValue) :
  match store !! key with
  | None => del key store = (false, store)
  | Some value =>
      fst (del key store) = true /\
      set key value (snd (del key store)) = store
  end.
Proof.
  unfold set, del. destruct (store !! key) as [value|] eqn:Hk; simpl.
  - split; [done|]. rewrite insert_delete_eq. by apply insert_id.
  - by rewrite delete_id.
Qed.

End UserDataSpec.

(* ===================================================================== *)
(** ** Properties of the router                                           *)
(* ===================================================================== *)

Module RouterSpec.
Import Json Router.

(** *** One compiled handler *)

Lemma forOf_loop (middlewares : list Middleware) :
  forall w : World,
    forOf middlewares callMiddleware w =
      (let '(c, mcs, stopped) := loop (ctx w) middlewares in
       (mkWorld c (trace w ++ map middleware_event mcs),
        match stopped with
        | None => Normal tt
        | Some e => Throw e
        end)).
Proof.
  induction middlewares as [|mw rest IH]; intros [c t]; simpl.
  - unfold ret. by rewrite app_nil_r.
  - unfold bind, callMiddleware at 1. simpl.
    destruct (mw c) as [c' [[]|e]] eqn:Hmw; simpl.
    + rewrite IH. simpl. destruct (loop c' rest) as [[c'' mcs] stopped].
      simpl. by rewrite <- app_assoc.
    + reflexivity.
Qed.

(** The monadic body of a compiled handler and its closed form agree. *)
Lemma run_compiled (eh : ErrorHandler) (middlewares : list Middleware)
    (h : Handler) (c : Context) :
  run (runMiddlewares eh middlewares ;;; callHandler h) c =
    compiled eh middlewares h c.
Proof.
  unfold run, compiled, bind, runMiddlewares, try_catch.
  rewrite forOf_loop. simpl.
  destruct (loop c middlewares) as [[c1 mcs] [err|]]; simpl.
  - unfold callErrorHandler, bind, ret, callHandler. simpl.
    destruct (eh c1 err) as [c2 [r|e|e]]; simpl;
      try (destruct (h c2) as [c3 res]; simpl; by rewrite <- app_assoc).
    reflexivity.
  - unfold callHandler. simpl. by destruct (h c1).
Qed.

Lemma loop_in_declared_order (middlewares : list Middleware) :
  forall c : Context,
    InDeclaredOrder c middlewares (loop c middlewares).1.2.
Proof.
  induction middlewares as [|mw rest IH]; intros c; simpl.
  - constructor.
  - destruct (mw c) as [c' [[]|e]] eqn:Hmw.
    + specialize (IH c'). destruct (loop c' rest) as [[c'' mcs] stopped].
      simpl in *. by econstructor.
    + simpl. by econstructor.
Qed.

Lemma middleware_calls_app (evs1 evs2 : list Event) :
  middleware_calls (evs1 ++ evs2) =
    middleware_calls evs1 ++ middleware_calls evs2.
Proof. apply omap_app. Qed.

Lemma middleware_calls_events (mcs : list (Middleware * Context)) :
  middleware_calls (map middleware_event mcs) = mcs.
Proof.
  induction mcs as [|[mw c] rest IH]; simpl; [done|].
  unfold middleware_calls in *. simpl. by rewrite IH.
Qed.

Lemma error_handler_calls_events (mcs : list (Middleware * Context)) :
  error_handler_calls (map middleware_event mcs) = [].
Proof. induction mcs as [|[mw c] rest IH]; simpl; done. Qed.

Lemma handler_calls_events (mcs : list (Middleware * Context)) :
  handler_calls (map middleware_event mcs) = [].
Proof. induction mcs as [|[mw c] rest IH]; simpl; done. Qed.

Lemma compiled_middleware_calls (eh : ErrorHandler)
    (middlewares : list Middleware) (h : Handler) (c : Context) :
  middleware_calls (events (compiled eh middlewares h c)) =
    (loop c middlewares).1.2.
Proof.
  unfold compiled.
  destruct (loop c middlewares) as [[c1 mcs] [err|]]; simpl.
  - destruct (eh c1 err) as [c2 [r|e|e]]; simpl;
      rewrite middleware_calls_app, middleware_calls_events;
      apply app_nil_r.
  - rewrite middleware_calls_app, middleware_calls_events. apply app_nil_r.
Qed.


(** *** The arrays of a router *)

Lemma read_insert_eq (a : gmap loc (list Middleware)) (l : loc)
    (x : list Middleware) :
  read (<[l := x]> a) l = x.
Proof. unfold read. by rewrite lookup_insert_eq. Qed.

Lemma read_insert_ne (a : gmap loc (list Middleware)) (l l' : loc)
    (x : list Middleware) :
  l <> l' -> read (<[l := x]> a) l' = read a l'.
Proof. intros Hne. unfold read. by rewrite lookup_insert_ne. Qed.

Lemma fresh_not_in (a : gmap loc (list Middleware)) (l : loc) :
  l ∈ dom a -> fresh (dom a) <> l.
Proof. intros Hin Heq. subst l. by apply (is_fresh (dom a)). Qed.

Section WithPlatform.

Variable URLPattern_valid : string -> bool.
Variable URLPattern_exec : URLPattern -> string -> option URLPatternResult.

Local Abbreviation call := (Router.call URLPattern_valid).
Local Abbreviation calls := (Router.calls URLPattern_valid).
Local Abbreviation factory := (Router.factory URLPattern_valid).
Local Abbreviation registered_by := (Router.registered_by URLPattern_valid).
Local Abbreviation not_found_compiled_by :=
  (Router.not_found_compiled_by URLPattern_valid).
Local Abbreviation route_match := (Router.route_match URLPattern_exec).
Local Abbreviation route_select := (Router.route_select URLPattern_exec).
Local Abbreviation route := (Router.route URLPattern_exec).
Local Abbreviation serve := (Router.serve URLPattern_exec).

Lemma calls_app (cs1 cs2 : list Call) (s : RouterState) :
  calls (cs1 ++ cs2) s = calls cs2 (calls cs1 s).
Proof. revert s. induction cs1 as [|c cs1 IH]; intros s; simpl; auto. Qed.

Lemma calls_snoc (cs : list Call) (c : Call) (s : RouterState) :
  calls (cs ++ [c]) s = call c (calls cs s).
Proof. by rewrite calls_app. Qed.

(** The binding [globalMiddlewares] is [const]. *)
Lemma call_globalMiddlewares (c : Call) (s : RouterState) :
  globalMiddlewares (call c s) = globalMiddlewares s.
Proof.
  destruct c as [ms|h|h|v pat h ms]; simpl; try reflexivity.
  unfold factory. by destruct (URLPattern_valid pat).
Qed.

Lemma calls_globalMiddlewares (cs : list Call) (s : RouterState) :
  globalMiddlewares (calls cs s) = globalMiddlewares s.
Proof.
  revert s. induction cs as [|c cs IH]; intros s; simpl; [done|].
  by rewrite IH, call_globalMiddlewares.
Qed.

(** No call ever drops an array. *)
Lemma call_dom (c : Call) (s : RouterState) (l : loc) :
  l ∈ dom (arrays s) -> l ∈ dom (arrays (call c s)).
Proof.
  intros Hl.
  destruct c as [ms|h|h|v pat h ms]; simpl; try done.
  - unfold push. rewrite dom_insert. set_solver.
  - rewrite dom_insert. set_solver.
  - unfold factory. destruct (URLPattern_valid pat); simpl; [|done].
    rewrite dom_insert. set_solver.
Qed.

Lemma calls_dom (cs : list Call) (s : RouterState) (l : loc) :
  l ∈ dom (arrays s) -> l ∈ dom (arrays (calls cs s)).
Proof.
  revert s. induction cs as [|c cs IH]; intros s Hl; simpl; [done|].
  by apply IH, call_dom.
Qed.

(** A call writes to the global array or to a new array, and to no
    other. *)
Lemma call_frame (c : Call) (s : RouterState) (l : loc) :
  l ∈ dom (arrays s) -> l <> globalMiddlewares s ->
  read (arrays (call c s)) l = read (arrays s) l.
Proof.
  intros Hl Hg.
  destruct c as [ms|h|h|v pat h ms]; simpl; try done.
  - unfold push. by rewrite read_insert_ne.
  - rewrite read_insert_ne; [done|]. by apply fresh_not_in.
  - unfold factory. destruct (URLPattern_valid pat); simpl; [|done].
    rewrite read_insert_ne; [done|]. by apply fresh_not_in.
Qed.

Lemma calls_frame (cs : list Call) (s : RouterState) (l : loc) :
  l ∈ dom (arrays s) -> l <> globalMiddlewares s ->
  read (arrays (calls cs s)) l = read (arrays s) l.
Proof.
  revert s. induction cs as [|c cs IH]; intros s Hl Hg; simpl; [done|].
  rewrite IH.
  - by apply call_frame.
  - by apply call_dom.
  - by rewrite call_globalMiddlewares.
Qed.

(** The global array exists from the start. *)
Lemma router_globalMiddlewares :
  globalMiddlewares router ∈ dom (arrays router) /\
  read (arrays router) (globalMiddlewares router) = [].
Proof.
  unfold router, alloc. simpl. split.
  - rewrite dom_insert. set_solver.
  - apply read_insert_eq.
Qed.

Lemma call_used (c : Call) (s : RouterState) :
  globalMiddlewares s ∈ dom (arrays s) ->
  read (arrays (call c s)) (globalMiddlewares s) =
    read (arrays s) (globalMiddlewares s) ++ used [c].
Proof.
  intros Hg.
  destruct c as [ms|h|h|v pat h ms]; simpl.
  - unfold push. by rewrite read_insert_eq, app_nil_r.
  - by rewrite app_nil_r.
  - rewrite app_nil_r. rewrite read_insert_ne; [done|].
    by apply fresh_not_in.
  - rewrite app_nil_r. unfold factory.
    destruct (URLPattern_valid pat); simpl; [|done].
    rewrite read_insert_ne; [done|]. by apply fresh_not_in.
Qed.

Lemma used_app (cs1 cs2 : list Call) :
  used (cs1 ++ cs2) = used cs1 ++ used cs2.
Proof.
  induction cs1 as [|c cs1 IH]; simpl; [done|].
  destruct c; simpl; try done. by rewrite IH, app_assoc.
Qed.

Lemma used_cons (c : Call) (cs : list Call) :
  used (c :: cs) = used [c] ++ used cs.
Proof. apply (used_app [c] cs). Qed.

Lemma calls_used (cs : list Call) (s : RouterState) :
  globalMiddlewares s ∈ dom (arrays s) ->
  read (arrays (calls cs s)) (globalMiddlewares s) =
    read (arrays s) (globalMiddlewares s) ++ used cs.
Proof.
  revert s. induction cs as [|c cs IH]; intros s Hg.
  - simpl. by rewrite app_nil_r.
  - rewrite used_cons, app_assoc, <- (call_used c s Hg).
    rewrite <- (call_globalMiddlewares c s). apply IH.
    rewrite call_globalMiddlewares. by apply call_dom.
Qed.

(** In a state reached from [router()] the global array holds what the
    [use] calls pushed, in the order of the calls. *)
Lemma reachable_globalMiddlewares (prog : list Call) :
  globalMiddlewares (calls prog router) ∈ dom (arrays (calls prog router))
  /\ read (arrays (calls prog router))
          (globalMiddlewares (calls prog router)) = used prog.
Proof.
  destruct router_globalMiddlewares as [Hdom Hread].
  rewrite calls_globalMiddlewares. split.
  - by apply calls_dom.
  - by rewrite calls_used, Hread.
Qed.


(** *** Provenance of routes and of the not-found handler *)

Lemma factory_routes (m pat : string) (h : Handler)
    (ms : list Middleware) (s s' : RouterState) :
  factory m pat h ms s = Some s' ->
  URLPattern_valid pat = true /\
  routes s' =
    routes s ++
      [mkRoute [toUpperCase m] (mkURLPattern pat)
         (createRouterHandler h (errorHandler s)
            (fresh (dom (arrays s))))] /\
  arrays s' =
    <[fresh (dom (arrays s)) :=
        read (arrays s) (globalMiddlewares s) ++ ms]> (arrays s).
Proof.
  unfold factory. destruct (URLPattern_valid pat); [|discriminate].
  simpl. intros [= <-]. auto.
Qed.

(** The route table only grows, and only at its end. *)
Lemma call_routes (c : Call) (s : RouterState) :
  exists new : list Route, routes (call c s) = routes s ++ new.
Proof.
  destruct c as [ms|h|h|v pat h ms]; simpl;
    try (exists []; by rewrite app_nil_r).
  destruct (factory (verb_name v) pat h ms s) as [s'|] eqn:Hf.
  - apply factory_routes in Hf as (_ & -> & _). eauto.
  - exists []. by rewrite app_nil_r.
Qed.

Lemma calls_routes (cs : list Call) (s : RouterState) :
  exists new : list Route, routes (calls cs s) = routes s ++ new.
Proof.
  revert s. induction cs as [|c cs IH]; intros s; simpl.
  - exists []. by rewrite app_nil_r.
  - destruct (IH (call c s)) as [new2 ->].
    destruct (call_routes c s) as [new1 ->].
    exists (new1 ++ new2). by rewrite app_assoc.
Qed.

Lemma registered_by_later (prog : list Call) (c : Call) (i : nat)
    (r : Route) :
  registered_by prog (calls prog router) i r ->
  registered_by (prog ++ [c]) (call c (calls prog router)) i r.
Proof.
  intros (before & v & pat & h & ms & after & -> & Hvalid & Hi & Hm & Hp
          & Hh & Heh & Hread & Hdom & Hne).
  exists before, v, pat, h, ms, (after ++ [c]).
  rewrite <- app_assoc. simpl. repeat split; try done.
  - by rewrite call_frame.
  - by apply call_dom.
  - by rewrite call_globalMiddlewares.
Qed.

Lemma call_lookup (c : Call) (s : RouterState) (i : nat) (r : Route) :
  routes (call c s) !! i = Some r ->
  routes s !! i = Some r \/
  exists (v : Verb) (pat : string) (h : Handler) (ms : list Middleware),
    c = CallVerb v pat h ms /\
    URLPattern_valid pat = true /\
    i = length (routes s) /\
    r = mkRoute [toUpperCase (verb_name v)] (mkURLPattern pat)
          (createRouterHandler h (errorHandler s)
             (fresh (dom (arrays s)))) /\
    arrays (call c s) =
      <[fresh (dom (arrays s)) :=
          read (arrays s) (globalMiddlewares s) ++ ms]> (arrays s).
Proof.
  destruct c as [ms|h|h|v pat h ms]; simpl; auto.
  destruct (factory (verb_name v) pat h ms s) as [s'|] eqn:Hf; auto.
  apply factory_routes in Hf as (Hvalid & -> & ->).
  intros [Hr | [Hlen Hr]]%lookup_app_Some; auto.
  apply list_lookup_singleton_Some in Hr as [Hi <-].
  right. exists v, pat, h, ms. repeat split; try done. lia.
Qed.

(** Every route of a state reached from [router()] was pushed by a
    registration call of the program, and its chain still holds what
    that call put there. *)
Lemma routes_registered (prog : list Call) :
  forall (i : nat) (r : Route),
    routes (calls prog router) !! i = Some r ->
    registered_by prog (calls prog router) i r.
Proof.
  induction prog as [|c prog IH] using rev_ind; intros i r Hr.
  - simpl in Hr. unfold router in Hr. simpl in Hr.
    by rewrite lookup_nil in Hr.
  - rewrite calls_snoc in *.
    destruct (reachable_globalMiddlewares prog) as [Hg Hused].
    apply call_lookup in Hr
      as [Hr | (v & pat & h & ms & -> & Hvalid & -> & -> & Harrays)].
    + by apply registered_by_later, IH.
    + pose proof (call_globalMiddlewares (CallVerb v pat h ms)
                    (calls prog router)) as Hgm.
      exists prog, v, pat, h, ms, []. rewrite Harrays, Hgm. simpl.
      repeat split; try done.
      * by rewrite read_insert_eq, Hused.
      * rewrite dom_insert. set_solver.
      * by apply fresh_not_in.
Qed.

Lemma call_notFoundHandler (c : Call) (s : RouterState) :
  is_onNotFound c = false ->
  notFoundHandler (call c s) = notFoundHandler s.
Proof.
  destruct c as [ms|h|h|v pat h ms]; simpl; try done.
  intros _. unfold factory. by destruct (URLPattern_valid pat).
Qed.

Lemma call_errorHandler (c : Call) (s : RouterState) :
  is_onError c = false ->
  errorHandler (call c s) = errorHandler s.
Proof.
  destruct c as [ms|h|h|v pat h ms]; simpl; try done.
  intros _. unfold factory. by destruct (URLPattern_valid pat).
Qed.

Lemma last_onNotFound_snoc (prog : list Call) (c : Call) :
  last_onNotFound (prog ++ [c]) =
    match c with
    | CallOnNotFound h => Some (prog, h)
    | _ => last_onNotFound prog
    end.
Proof.
  induction prog as [|x prog IH]; simpl.
  - by destruct c.
  - rewrite IH. destruct c; try done.
Qed.

(** The not-found handler of a state reached from [router()] is the
    initial one or the one compiled by the last [onNotFound] call, and
    its chain still holds what that call copied. *)
Lemma not_found_compiled (prog : list Call) :
  not_found_compiled_by prog (calls prog router).
Proof.
  induction prog as [|c prog IH] using rev_ind.
  - reflexivity.
  - rewrite calls_snoc.
    destruct (reachable_globalMiddlewares prog) as [Hg Hused].
    unfold Router.not_found_compiled_by in *.
    rewrite last_onNotFound_snoc.
    destruct (decide (is_onNotFound c = true)) as [Hc | Hc].
    + destruct c as [ms|h|h|v pat h ms]; try discriminate.
      simpl. eexists. split; [reflexivity|].
      rewrite read_insert_eq, dom_insert. repeat split; try done.
      * set_solver.
      * by apply fresh_not_in.
    + apply not_true_is_false in Hc.
      assert (match c with
              | CallOnNotFound h => Some (prog, h)
              | _ => last_onNotFound prog
              end = last_onNotFound prog) as -> by by destruct c.
      destruct (last_onNotFound prog) as [[before h]|].
      * destruct IH as (l & Hnf & Hread & Hdom & Hne).
        exists l. rewrite call_notFoundHandler, call_frame,
          call_globalMiddlewares by done.
        repeat split; try done. by apply call_dom.
      * by rewrite call_notFoundHandler.
Qed.

(** *** Selecting a route *)

Lemma route_select_None (rs : list Route) (req : Request) :
  route_select rs req = None ->
  forall (k : nat) (r : Route), rs !! k = Some r -> route_match r req = None.
Proof.
  induction rs as [|x rs IH]; simpl; intros Hsel k r Hk.
  - by rewrite lookup_nil in Hk.
  - destruct (route_match x req) as [g|] eqn:Hx; [discriminate|].
    destruct k as [|k]; simpl in Hk.
    + by injection Hk as <-.
    + by apply (IH Hsel k).
Qed.

(** The selected route is the first one in table order that matches. *)
Lemma route_select_first (rs : list Route) (req : Request) :
  forall (i : nat) (r1 : Route) (g1 : URLPatternResult),
    rs !! i = Some r1 ->
    route_match r1 req = Some g1 ->
    exists (k : nat) (r : Route) (groups : URLPatternResult),
      (k <= i)%nat /\
      rs !! k = Some r /\
      route_match r req = Some groups /\
      route_select rs req = Some (r, groups) /\
      forall (k' : nat) (r' : Route),
        (k' < k)%nat -> rs !! k' = Some r' -> route_match r' req = None.
Proof.
  induction rs as [|x rs IH]; intros i r1 g1 Hi Hm.
  - by rewrite lookup_nil in Hi.
  - simpl. destruct (route_match x req) as [g|] eqn:Hx.
    + exists O, x, g. repeat split; try done; [lia|]. intros k' r' Hk. lia.
    + destruct i as [|i]; simpl in Hi.
      * injection Hi as ->. congruence.
      * destruct (IH i r1 g1 Hi Hm) as (k & r & groups & Hle & Hk & Hr
                                        & Hsel & Hfirst).
        exists (S k), r, groups. repeat split; try done; [lia|].
        intros [|k'] r' Hlt Hk'; simpl in Hk'.
        -- by injection Hk' as <-.
        -- apply (Hfirst k'); [lia | done].
Qed.

(** *** The loop of a chain *)

Lemma loop_stopped (middlewares : list Middleware) :
  forall (c c1 : Context) (mcs : list (Middleware * Context))
         (err : Error),
    loop c middlewares = (c1, mcs, Some err) ->
    exists (mw : Middleware) (c0 : Context),
      (mw, c0) ∈ mcs /\ mw c0 = (c1, Throw err).
Proof.
  induction middlewares as [|mw rest IH]; intros c c1 mcs err; simpl.
  - discriminate.
  - destruct (mw c) as [c' [[]|e]] eqn:Hmw.
    + destruct (loop c' rest) as [[c'' mcs'] stopped] eqn:Hloop.
      intros [= -> <- ->].
      destruct (IH _ _ _ _ Hloop) as (mw0 & c0 & Hin & Hthrow).
      exists mw0, c0. split; [apply elem_of_cons; by right | done].
    + intros [= <- <- <-]. exists mw, c.
      split; [apply elem_of_cons; by left | done].
Qed.

Lemma loop_completed (middlewares : list Middleware) :
  forall (c c1 : Context) (mcs : list (Middleware * Context)),
    loop c middlewares = (c1, mcs, None) ->
    length mcs = length middlewares.
Proof.
  induction middlewares as [|mw rest IH]; intros c c1 mcs; simpl.
  - by intros [= <- <-].
  - destruct (mw c) as [c' [[]|e]] eqn:Hmw; [|discriminate].
    destruct (loop c' rest) as [[c'' mcs'] stopped] eqn:Hloop.
    intros [= -> <- ->]. simpl. f_equal. by eapply IH.
Qed.

Lemma loop_completed_thread (middlewares : list Middleware) :
  forall (c c1 : Context) (mcs : list (Middleware * Context)),
    loop c middlewares = (c1, mcs, None) ->
    c1 = thread c middlewares.
Proof.
  induction middlewares as [|mw rest IH]; intros c c1 mcs; simpl.
  - by intros [= <- <-].
  - unfold thread. simpl.
    destruct (mw c) as [c' [[]|e]] eqn:Hmw; [|discriminate]. simpl.
    destruct (loop c' rest) as [[c'' mcs'] stopped] eqn:Hloop.
    intros [= -> <- ->]. by eapply IH.
Qed.

(** *** The claims about compiled handlers *)

(** C3, as the code has it.  Take any route of the table of a router,
    in any state reached from [router()].  It was pushed by one
    registration call of the program, and whenever its handler is called
    for a request, the middlewares that run are, in this order, the
    global ones passed to the [use] calls made before that registration
    (in the order of those calls) and then the ones passed to the
    registration (in the order given), each on the context left by the
    previous one, up to and including the first one that fails: none
    runs after it.  A global middleware passed to [use] after the
    registration is not in that chain and never runs for the route. *)
Theorem middlewares_run_in_declared_order
    (prog : list Call) (i : nat) (r : Route)
    (req : Request) (params : option URLPatternResult)
    (info : option ServeHandlerInfo) :
  routes (calls prog router) !! i = Some r ->
  exists (before : list Call) (v : Verb) (pat : string) (h : Handler)
         (ms : list Middleware) (after : list Call),
    prog = before ++ CallVerb v pat h ms :: after /\
    length (routes (calls before router)) = i /\
    rh_handler (handler r) = h /\
    InDeclaredOrder (createContext req params info) (used before ++ ms)
      (middleware_calls
         (events (callRouterHandler (arrays (calls prog router))
                    (handler r) req params info))).
Proof.
  intros Hr.
  destruct (routes_registered prog i r Hr)
    as (before & v & pat & h & ms & after & Hprog & _ & Hi & _ & _ & Hh
        & _ & Hread & _ & _).
  exists before, v, pat, h, ms, after. repeat split; try done.
  unfold callRouterHandler.
  rewrite run_compiled, compiled_middleware_calls, Hread.
  apply loop_in_declared_order.
Qed.

(** Registering a route appends it to the table; the route then stays
    where it is, with the chain it was given. *)
Lemma registration_appends
    (prog : list Call) (v : Verb) (pat : string) (h : Handler)
    (ms : list Middleware) (later : list Call) :
  URLPattern_valid pat = true ->
  let s := calls prog router in
  let s1 := call (CallVerb v pat h ms) s in
  let s2 := calls later s1 in
  exists r : Route,
    routes s1 = routes s ++ [r] /\
    routes s2 !! length (routes s) = Some r /\
    method r = [toUpperCase (verb_name v)] /\
    pattern r = mkURLPattern pat /\
    rh_handler (handler r) = h /\
    rh_errorHandler (handler r) = errorHandler s /\
    rh_middlewares (handler r) <> globalMiddlewares s2 /\
    read (arrays s1) (rh_middlewares (handler r)) =
      read (arrays s) (globalMiddlewares s) ++ ms /\
    read (arrays s2) (rh_middlewares (handler r)) =
      read (arrays s1) (rh_middlewares (handler r)).
Proof.
  intros Hvalid s s1 s2.
  destruct (reachable_globalMiddlewares prog) as [Hg _]. fold s in Hg.
  destruct (factory (verb_name v) pat h ms s) as [s'|] eqn:Hf;
    [|unfold Router.factory in Hf; by rewrite Hvalid in Hf].
  assert (s1 = s') as Hs1 by (unfold s1; simpl; by rewrite Hf).
  apply factory_routes in Hf as (_ & Hroutes & Harrays).
  rewrite <- Hs1 in Hroutes, Harrays.
  assert (globalMiddlewares s1 = globalMiddlewares s) as Hg1
    by apply call_globalMiddlewares.
  set (l := fresh (dom (arrays s))) in *.
  assert (l ∈ dom (arrays s1)) as Hl
    by (rewrite Harrays, dom_insert; set_solver).
  assert (l <> globalMiddlewares s1) as Hne
    by (rewrite Hg1; by apply fresh_not_in).
  assert (read (arrays s2) l = read (arrays s1) l) as Hframe
    by by apply calls_frame.
  eexists. split; [exact Hroutes|]. simpl.
  destruct (calls_routes later s1) as [new Hnew]. fold s2 in Hnew.
  repeat split; try done.
  - rewrite Hnew, Hroutes, <- app_assoc.
    by rewrite lookup_app_r, Nat.sub_diag.
  - unfold s2. by rewrite calls_globalMiddlewares.
  - by rewrite Harrays, read_insert_eq.
Qed.

(** C10.  A route registered in a state reached from [router()] keeps,
    whatever calls follow ([onError], [use] or any other), its place in
    the table, the error handler that was current when it was
    registered and a chain that holds the global middlewares of that
    moment followed by its own; calling its handler after those calls
    gives what calling it right after the registration gives. *)
Theorem registered_route_is_unaffected_by_later_calls
    (prog : list Call) (v : Verb) (pat : string) (h : Handler)
    (ms : list Middleware) (later : list Call) :
  URLPattern_valid pat = true ->
  let s := calls prog router in
  let s1 := call (CallVerb v pat h ms) s in
  let s2 := calls later s1 in
  exists r : Route,
    routes s1 = routes s ++ [r] /\
    routes s2 !! length (routes s) = Some r /\
    rh_handler (handler r) = h /\
    rh_errorHandler (handler r) = errorHandler s /\
    rh_middlewares (handler r) <> globalMiddlewares s2 /\
    read (arrays s2) (rh_middlewares (handler r)) =
      read (arrays s) (globalMiddlewares s) ++ ms /\
    forall (req : Request) (params : option URLPatternResult)
           (info : option ServeHandlerInfo),
      callRouterHandler (arrays s2) (handler r) req params info =
        callRouterHandler (arrays s1) (handler r) req params info.
Proof.
  intros Hvalid s s1 s2.
  destruct (registration_appends prog v pat h ms later Hvalid)
    as (r & Hs1 & Hs2 & _ & _ & Hh & Heh & Hne & Hread & Hframe).
  exists r. repeat split; try done.
  - fold s s1 s2 in Hframe, Hread. by rewrite Hframe, Hread.
  - intros req params info. unfold callRouterHandler.
    fold s s1 s2 in Hframe. by rewrite Hframe.
Qed.

(** C5.  [onNotFound], called in a state reached from [router()],
    compiles a handler over a new array, different from the global
    one, that holds the global middlewares of that moment.  Whatever
    calls follow, that array still holds the same middlewares and the
    compiled handler behaves the same, while the global array goes on
    growing; and as long as the calls that follow are [use] calls, the
    compiled handler remains the not-found handler of the router. *)
Theorem onNotFound_takes_a_snapshot
    (prog : list Call) (h : Handler) (later : list Call)
    (uses : list (list Middleware)) :
  let s := calls prog router in
  let s1 := onNotFound h s in
  let s2 := calls later s1 in
  exists copy : loc,
    notFoundHandler s1 = createDenoHandler h (errorHandler s) copy /\
    copy <> globalMiddlewares s1 /\
    read (arrays s1) copy = used prog /\
    read (arrays s2) copy = used prog /\
    read (arrays s2) (globalMiddlewares s2) = used prog ++ used later /\
    (forall (req : Request) (info : option ServeHandlerInfo),
       callDenoHandler (arrays s2) (notFoundHandler s1) req info =
         callDenoHandler (arrays s1) (notFoundHandler s1) req info) /\
    notFoundHandler (calls (map CallUse uses) s1) = notFoundHandler s1.
Proof.
  intros s s1 s2.
  destruct (reachable_globalMiddlewares prog) as [Hg Hused].
  fold s in Hg, Hused.
  set (l := fresh (dom (arrays s))).
  assert (l ∈ dom (arrays s1)) as Hl
    by (simpl; rewrite dom_insert; set_solver).
  assert (l <> globalMiddlewares s1) as Hne by by apply fresh_not_in.
  assert (read (arrays s1) l = used prog) as Hread
    by (simpl; by rewrite read_insert_eq).
  assert (read (arrays s2) l = read (arrays s1) l) as Hframe
    by by apply calls_frame.
  exists l. repeat split; try done.
  - by rewrite Hframe.
  - assert (s2 = calls ((prog ++ [CallOnNotFound h]) ++ later) router)
      as -> by (by rewrite calls_app, calls_snoc).
    destruct (reachable_globalMiddlewares ((prog ++ [CallOnNotFound h])
                                            ++ later)) as [_ ->].
    rewrite !used_app. simpl. by rewrite app_nil_r.
  - intros req info.
    change (notFoundHandler s1)
      with (createDenoHandler h (errorHandler s) l).
    unfold callDenoHandler. by rewrite Hframe.
  - clear. generalize s1. induction uses as [|ms uses IH]; intros s0.
    + reflexivity.
    + simpl. by rewrite IH.
Qed.

(** C7.  A new router has the default error handler and the default
    not-found handler.  The default error handler answers status 500
    with the text [Error: ] followed by the message of the error; the
    default not-found handler answers status 404 with the text
    [Not Found] and calls nothing.  A program that makes no [onError]
    call leaves the first in place, and a program that makes no
    [onNotFound] call leaves the second in place. *)
Theorem defaults_until_overridden (prog : list Call) :
  errorHandler router = defaultErrorHandler /\
  notFoundHandler router = defaultNotFoundHandler /\
  (forall (c : Context) (err : Error),
     defaultErrorHandler c err =
       (c, EhResponse
             (mkResponse 500 [] (Some ("Error: " +:+ message err))))) /\
  (forall (a : gmap loc (list Middleware)) (req : Request)
          (info : option ServeHandlerInfo),
     callDenoHandler a defaultNotFoundHandler req info =
       mkOutcome [] (Normal (mkResponse 404 [] (Some "Not Found")))) /\
  errorHandler
    (calls (List.filter (fun c => negb (is_onError c)) prog) router) =
    defaultErrorHandler /\
  notFoundHandler
    (calls (List.filter (fun c => negb (is_onNotFound c)) prog) router) =
    defaultNotFoundHandler.
Proof.
  repeat split.
  - change defaultErrorHandler with (errorHandler router).
    generalize router.
    induction prog as [|c prog IH]; intros s; simpl; [done|].
    destruct (is_onError c) eqn:Hc; simpl; [apply IH|].
    by rewrite IH, call_errorHandler.
  - change defaultNotFoundHandler with (notFoundHandler router).
    generalize router.
    induction prog as [|c prog IH]; intros s; simpl; [done|].
    destruct (is_onNotFound c) eqn:Hc; simpl; [apply IH|].
    by rewrite IH, call_notFoundHandler.
Qed.

(** *** The claims about dispatch *)

Lemma handler_calls_app (evs1 evs2 : list Event) :
  handler_calls (evs1 ++ evs2) = handler_calls evs1 ++ handler_calls evs2.
Proof. apply omap_app. Qed.

Lemma error_handler_calls_app (evs1 evs2 : list Event) :
  error_handler_calls (evs1 ++ evs2) =
    error_handler_calls evs1 ++ error_handler_calls evs2.
Proof. apply omap_app. Qed.

(** C2.  Let a program register a route R1 and, later, a route R2.
    R1 then sits in the table at a lower index than R2.  For a request
    that both match, the table is scanned in index order and the
    request goes to the first route that matches: a route at or before
    the index of R1, hence never R2, and R1 itself when no earlier
    route matches.  The handler of that route is called with the
    captured groups. *)
Theorem registration_order_is_precedence
    (before : list Call) (v1 : Verb) (pat1 : string) (h1 : Handler)
    (ms1 : list Middleware) (between : list Call)
    (v2 : Verb) (pat2 : string) (h2 : Handler) (ms2 : list Middleware)
    (after : list Call) (srv : Server) (req : Request)
    (info : option ServeHandlerInfo) :
  URLPattern_valid pat1 = true ->
  URLPattern_valid pat2 = true ->
  let prog := before ++ CallVerb v1 pat1 h1 ms1 ::
                between ++ CallVerb v2 pat2 h2 ms2 :: after in
  let now := calls prog router in
  let i := length (routes (calls before router)) in
  let j := length (routes (calls (before ++ CallVerb v1 pat1 h1 ms1 ::
                                    between) router)) in
  exists r1 r2 : Route,
    (i < j)%nat /\
    routes now !! i = Some r1 /\
    routes now !! j = Some r2 /\
    method r1 = [toUpperCase (verb_name v1)] /\
    pattern r1 = mkURLPattern pat1 /\
    rh_handler (handler r1) = h1 /\
    method r2 = [toUpperCase (verb_name v2)] /\
    pattern r2 = mkURLPattern pat2 /\
    rh_handler (handler r2) = h2 /\
    forall g1 g2 : URLPatternResult,
      route_match r1 req = Some g1 ->
      route_match r2 req = Some g2 ->
      exists (k : nat) (r : Route) (groups : URLPatternResult),
        (k <= i)%nat /\
        routes now !! k = Some r /\
        route_match r req = Some groups /\
        (forall (k' : nat) (r' : Route),
           (k' < k)%nat -> routes now !! k' = Some r' ->
           route_match r' req = None) /\
        serve srv now req info =
          callRouterHandler (arrays now) (handler r) req (Some groups)
            info /\
        ((forall (k' : nat) (r' : Route),
            (k' < i)%nat -> routes now !! k' = Some r' ->
            route_match r' req = None) ->
         r = r1 /\ groups = g1).
Proof.
  intros Hv1 Hv2 prog now i j.
  destruct (registration_appends before v1 pat1 h1 ms1
              (between ++ CallVerb v2 pat2 h2 ms2 :: after) Hv1)
    as (r1 & Hs1 & Hnow1 & Hm1 & Hp1 & Hh1 & _).
  destruct (registration_appends
              (before ++ CallVerb v1 pat1 h1 ms1 :: between)
              v2 pat2 h2 ms2 after Hv2)
    as (r2 & _ & Hnow2 & Hm2 & Hp2 & Hh2 & _).
  assert (now = calls (between ++ CallVerb v2 pat2 h2 ms2 :: after)
                  (call (CallVerb v1 pat1 h1 ms1)
                     (calls before router))) as Hnow
    by (unfold now, prog; by rewrite calls_app).
  assert (now = calls after
                  (call (CallVerb v2 pat2 h2 ms2)
                     (calls (before ++ CallVerb v1 pat1 h1 ms1 :: between)
                        router))) as Hnow'.
  { unfold now, prog.
    replace (before ++ CallVerb v1 pat1 h1 ms1 ::
               between ++ CallVerb v2 pat2 h2 ms2 :: after)
      with ((before ++ CallVerb v1 pat1 h1 ms1 :: between) ++
              CallVerb v2 pat2 h2 ms2 :: after)
      by (by rewrite <- app_assoc).
    by rewrite (calls_app (before ++ _ :: between)). }
  rewrite <- Hnow in Hnow1. rewrite <- Hnow' in Hnow2.
  assert (i < j)%nat as Hij.
  { assert (calls (before ++ CallVerb v1 pat1 h1 ms1 :: between) router =
            calls between (call (CallVerb v1 pat1 h1 ms1)
                             (calls before router))) as Hmid
      by (by rewrite calls_app).
    destruct (calls_routes between
                (call (CallVerb v1 pat1 h1 ms1) (calls before router)))
      as [new Hnew].
    unfold i, j. rewrite Hmid, Hnew, Hs1, !length_app. simpl. lia. }
  exists r1, r2. repeat split; try done.
  intros g1 g2 Hg1 _.
  destruct (route_select_first (routes now) req i r1 g1 Hnow1 Hg1)
    as (k & r & groups & Hle & Hk & Hr & Hsel & Hnone).
  exists k, r, groups.
  do 4 (split; [done|]).
  split; [unfold Router.serve, Router.route; by rewrite Hsel|].
  intros Hearlier.
  destruct (decide (k = i)) as [-> | Hne].
  - fold i in Hnow1. split; congruence.
  - rewrite (Hearlier k r) in Hr; [done | lia | done].
Qed.

(** C4, as the code has it.  A request that matches no route of the
    table never reaches a route; the server answers with the not-found
    handler it was given by [listen].  If the program had made no
    [onNotFound] call by then, no middleware and no handler of the
    application is called and the answer is status 404 with the text
    [Not Found].  Otherwise the middlewares that run are the global
    ones passed to the [use] calls made before the last [onNotFound]
    call, in declared order; the only handler that can be called is
    the one given to that [onNotFound] call; and when no middleware
    fails, all of those middlewares run, that handler is called after
    them on the context they have left, and what it returns or throws
    is the answer to the request. *)
Theorem unmatched_request_takes_the_not_found_path
    (prog later : list Call) (req : Request)
    (info : option ServeHandlerInfo) :
  let listening := calls prog router in
  let now := calls later listening in
  let o := serve (listen listening) now req info in
  route_select (routes now) req = None ->
  match last_onNotFound prog with
  | None => o = mkOutcome [] (Normal (mkResponse 404 [] (Some "Not Found")))
  | Some (before, h) =>
      InDeclaredOrder (createContext req None info) (used before)
        (middleware_calls (events o)) /\
      (forall (h' : Handler) (c : Context),
         (h', c) ∈ handler_calls (events o) -> h' = h) /\
      (error_handler_calls (events o) = [] ->
       exists c : Context,
         events o =
           map middleware_event (middleware_calls (events o)) ++
             [HandlerCalled h c] /\
         length (middleware_calls (events o)) = length (used before) /\
         c = thread (createContext req None info) (used before) /\
         completion o = snd (h c))
  end.
Proof.
  intros listening now o Hmiss.
  assert (o = callDenoHandler (arrays now) (notFoundHandler listening)
                req info) as Ho
    by (unfold o, Router.serve, Router.route; by rewrite Hmiss).
  pose proof (not_found_compiled prog) as Hnf.
  unfold Router.not_found_compiled_by in Hnf. fold listening in Hnf.
  destruct (last_onNotFound prog) as [[before h]|].
  - destruct Hnf as (l & Hnf & Hread & Hdom & Hne).
    assert (read (arrays now) l = used before) as Hnow
      by (unfold now; by rewrite calls_frame).
    rewrite Hnf in Ho. simpl in Ho. rewrite run_compiled, Hnow in Ho.
    rewrite Ho. clear Ho o. repeat split.
    + rewrite compiled_middleware_calls. apply loop_in_declared_order.
    + unfold compiled.
      destruct (loop _ (used before)) as [[c1 mcs] [err|]]; simpl.
      * destruct (errorHandler _ c1 err) as [c2 [res|e|e]]; simpl;
          rewrite handler_calls_app, handler_calls_events; simpl;
          intros h' c Hin;
          try (apply list_elem_of_singleton in Hin; congruence).
        inversion Hin.
      * rewrite handler_calls_app, handler_calls_events. simpl.
        intros h' c Hin. apply list_elem_of_singleton in Hin. congruence.
    + rewrite compiled_middleware_calls. unfold compiled.
      destruct (loop _ (used before)) as [[c1 mcs] [err|]] eqn:Hloop;
        simpl.
      * destruct (errorHandler _ c1 err) as [c2 [res|e|e]]; simpl;
          rewrite error_handler_calls_app, error_handler_calls_events;
          simpl; discriminate.
      * intros _. exists c1. split; [done|].
        split; [by eapply loop_completed|].
        split; [by eapply loop_completed_thread | done].
  - by rewrite Hnf in Ho.
Qed.

(** C6.  When the handler of a route is called and fails, the failure
    is the outcome of the dispatch: the call of the handler is the last
    call made, so the error handler is not called for it; every call
    of the error handler made before it was caused by a middleware
    that threw the error the error handler was given. *)
Theorem handler_failure_propagates
    (a : gmap loc (list Middleware)) (rh : RouterHandler)
    (req : Request) (params : option URLPatternResult)
    (info : option ServeHandlerInfo) (c c' : Context) (e : Error) :
  let o := callRouterHandler a rh req params info in
  (rh_handler rh, c) ∈ handler_calls (events o) ->
  rh_handler rh c = (c', Throw e) ->
  completion o = Throw e /\
  exists pre : list Event,
    events o = pre ++ [HandlerCalled (rh_handler rh) c] /\
    forall (eh : ErrorHandler) (c2 : Context) (err : Error),
      (eh, c2, err) ∈ error_handler_calls pre ->
      exists (mw : Middleware) (c1 : Context),
        (mw, c1) ∈ middleware_calls pre /\ mw c1 = (c2, Throw err).
Proof.
  intros o. unfold o, callRouterHandler. rewrite run_compiled.
  unfold compiled.
  destruct (loop _ _) as [[c1 mcs] [err|]] eqn:Hloop; simpl.
  - destruct (rh_errorHandler rh c1 err) as [c2 [res|e'|e']] eqn:Heh;
      simpl; rewrite handler_calls_app, handler_calls_events; simpl;
      intros Hin Hthrow;
      try (apply list_elem_of_singleton in Hin; injection Hin as <-;
           rewrite Hthrow; split; [done|];
           exists (map middleware_event mcs ++
                     [ErrorHandlerCalled (rh_errorHandler rh) c1 err]);
           split; [by rewrite <- app_assoc|];
           rewrite error_handler_calls_app, error_handler_calls_events,
             middleware_calls_app, middleware_calls_events, app_nil_r;
           simpl; intros eh c3 err' Hin';
           apply list_elem_of_singleton in Hin';
           injection Hin' as -> -> ->;
           by eapply loop_stopped).
    inversion Hin.
  - rewrite handler_calls_app, handler_calls_events. simpl.
    intros Hin Hthrow. apply list_elem_of_singleton in Hin.
    injection Hin as <-. rewrite Hthrow. split; [done|].
    exists (map middleware_event mcs). split; [done|].
    rewrite error_handler_calls_events. intros eh c2 err Hin.
    inversion Hin.
Qed.

(** The defect behind C1, for every route: when a middleware of the
    chain fails and the error handler returns a response, that
    response is dropped, the handler of the route is called all the
    same and its completion is the outcome of the dispatch. *)
Lemma error_response_is_dropped
    (a : gmap loc (list Middleware)) (rh : RouterHandler)
    (req : Request) (params : option URLPatternResult)
    (info : option ServeHandlerInfo) (c1 c2 : Context)
    (mcs : list (Middleware * Context)) (err : Error) (res : Response) :
  loop (createContext req params info) (read a (rh_middlewares rh)) =
    (c1, mcs, Some err) ->
  rh_errorHandler rh c1 err = (c2, EhResponse res) ->
  callRouterHandler a rh req params info =
    mkOutcome
      (map middleware_event mcs ++
         [ErrorHandlerCalled (rh_errorHandler rh) c1 err;
          HandlerCalled (rh_handler rh) c2])
      (snd (rh_handler rh c2)).
Proof.
  intros Hloop Heh. unfold callRouterHandler.
  rewrite run_compiled. unfold compiled. by rewrite Hloop, Heh.
Qed.


(** *** More about one compiled handler *)

Lemma loop_succeeds (middlewares : list Middleware) :
  forall c : Context,
    succeeds c middlewares = true ->
    exists mcs : list (Middleware * Context),
      loop c middlewares = (thread c middlewares, mcs, None) /\
      map fst mcs = middlewares.
Proof.
  induction middlewares as [|mw rest IH]; intros c Hok; simpl in *.
  - by exists [].
  - unfold thread. simpl.
    destruct (mw c) as [c' [[]|e]] eqn:Hmw; [|discriminate]. simpl.
    destruct (IH c' Hok) as (mcs & -> & Hmcs).
    exists ((mw, c) :: mcs). simpl. by rewrite Hmcs.
Qed.

Lemma loop_length (middlewares : list Middleware) :
  forall c : Context,
    (length (loop c middlewares).1.2 <= length middlewares)%nat.
Proof.
  induction middlewares as [|mw rest IH]; intros c; simpl; [lia|].
  destruct (mw c) as [c' [[]|e]] eqn:Hmw.
  - specialize (IH c'). destruct (loop c' rest) as [[c'' mcs] stopped].
    simpl in *. lia.
  - simpl. lia.
Qed.

(** The first call of a chain gets the context the loop started from;
    a loop that calls nothing had nothing to call. *)
Lemma loop_head (middlewares : list Middleware) (c : Context) :
  match (loop c middlewares).1.2 with
  | [] => loop c middlewares = (c, [], None)
  | mc :: _ => snd mc = c
  end.
Proof.
  destruct middlewares as [|mw rest]; simpl; [done|].
  destruct (mw c) as [c' [[]|e]] eqn:Hmw; simpl; [|done].
  by destruct (loop c' rest) as [[c'' mcs] stopped].
Qed.

(** What every run of a compiled body has in common. *)
Lemma compiled_shape (eh : ErrorHandler) (middlewares : list Middleware)
    (h : Handler) (c : Context) :
  let o := compiled eh middlewares h c in
  (length (error_handler_calls (events o)) <= 1)%nat /\
  (length (handler_calls (events o)) <= 1)%nat /\
  (length (middleware_calls (events o)) <= length middlewares)%nat /\
  (forall (h' : Handler) (c' : Context),
     (h', c') ∈ handler_calls (events o) ->
     exists pre : list Event, events o = pre ++ [HandlerCalled h' c']) /\
  exists (ev : Event) (rest : list Event),
    events o = ev :: rest /\ event_ctx ev = c.
Proof.
  intros o.
  assert (middleware_calls (events o) = (loop c middlewares).1.2) as Hmc
    by apply compiled_middleware_calls.
  pose proof (loop_length middlewares c) as Hlen.
  pose proof (loop_head middlewares c) as Hhead.
  rewrite Hmc. clear Hmc. unfold o, compiled. clear o.
  destruct (loop c middlewares) as [[c1 mcs] stopped]. simpl in *.
  destruct stopped as [err|].
  - destruct (eh c1 err) as [c2 [res|e|e]]; simpl;
      rewrite error_handler_calls_app, error_handler_calls_events,
        handler_calls_app, handler_calls_events; simpl;
      (split; [lia|]); (split; [lia|]); (split; [lia|]); split.
    1, 3: intros h' c' Hin; apply list_elem_of_singleton in Hin;
          injection Hin as -> ->;
          exists (map middleware_event mcs ++ [ErrorHandlerCalled eh c1 err]);
          by rewrite <- app_assoc.
    1, 2, 4: destruct mcs as [|[mw c0] mcs]; [discriminate|];
             simpl in *; subst; eauto.
    intros h' c' Hin. inversion Hin.
  - simpl.
    rewrite error_handler_calls_app, error_handler_calls_events,
      handler_calls_app, handler_calls_events. simpl.
    (split; [lia|]); (split; [lia|]); (split; [lia|]); split.
    + intros h' c' Hin. apply list_elem_of_singleton in Hin.
      injection Hin as -> ->. eauto.
    + destruct mcs as [|[mw c0] mcs]; simpl in *.
      * injection Hhead as ->. eauto.
      * subst. eauto.
Qed.

(** X7.  When every middleware of the chain completes, they all run, in
    order; the error handler is not called; the handler is called once,
    on the context that the middlewares have left, one working on what
    the previous one left; and its completion is the outcome. *)
Theorem successful_chain_hands_its_context_to_the_handler
    (a : gmap loc (list Middleware)) (rh : RouterHandler)
    (req : Request) (params : option URLPatternResult)
    (info : option ServeHandlerInfo) :
  succeeds (createContext req params info) (read a (rh_middlewares rh))
    = true ->
  let o := callRouterHandler a rh req params info in
  let c := thread (createContext req params info)
             (read a (rh_middlewares rh)) in
  map fst (middleware_calls (events o)) = read a (rh_middlewares rh) /\
  error_handler_calls (events o) = [] /\
  handler_calls (events o) = [(rh_handler rh, c)] /\
  completion o = snd (rh_handler rh c).
Proof.
  intros Hok o c. unfold o, callRouterHandler.
  rewrite run_compiled. unfold compiled.
  destruct (loop_succeeds _ _ Hok) as (mcs & -> & Hmcs). simpl.
  rewrite middleware_calls_app, error_handler_calls_app, handler_calls_app,
    middleware_calls_events, error_handler_calls_events,
    handler_calls_events.
  simpl. by rewrite app_nil_r.
Qed.

(** X8.  Whatever the middlewares and handlers do, one dispatch calls the
    error handler at most once and the handler at most once, calls no
    more middlewares than the chain has, and calls nothing after the
    handler.  This holds for the handler of a route and for a compiled
    not-found handler alike. *)
Theorem one_dispatch_calls_each_handler_at_most_once
    (a : gmap loc (list Middleware)) (h : Handler) (eh : ErrorHandler)
    (l : loc) (req : Request) (params : option URLPatternResult)
    (info : option ServeHandlerInfo) :
  let o1 := callRouterHandler a (createRouterHandler h eh l) req params info in
  let o2 := callDenoHandler a (createDenoHandler h eh l) req info in
  ((length (error_handler_calls (events o1)) <= 1)%nat /\
   (length (handler_calls (events o1)) <= 1)%nat /\
   (length (middleware_calls (events o1)) <= length (read a l))%nat /\
   forall (h' : Handler) (c' : Context),
     (h', c') ∈ handler_calls (events o1) ->
     exists pre : list Event, events o1 = pre ++ [HandlerCalled h' c']) /\
  ((length (error_handler_calls (events o2)) <= 1)%nat /\
   (length (handler_calls (events o2)) <= 1)%nat /\
   (length (middleware_calls (events o2)) <= length (read a l))%nat /\
   forall (h' : Handler) (c' : Context),
     (h', c') ∈ handler_calls (events o2) ->
     exists pre : list Event, events o2 = pre ++ [HandlerCalled h' c']).
Proof.
  intros o1 o2. unfold o1, o2, callRouterHandler, callDenoHandler. simpl.
  rewrite !run_compiled.
  split.
  - destruct (compiled_shape eh (read a l) h (createContext req params info))
      as (H1 & H2 & H3 & H4 & _). auto.
  - destruct (compiled_shape eh (read a l) h (createContext req None info))
      as (H1 & H2 & H3 & H4 & _). auto.
Qed.

(** X9.  When the error handler is called and throws, the dispatch fails
    with the error it threw and the handler of the route is not
    called. *)
Theorem throwing_error_handler_ends_the_request
    (a : gmap loc (list Middleware)) (rh : RouterHandler)
    (req : Request) (params : option URLPatternResult)
    (info : option ServeHandlerInfo) (c1 c2 : Context) (err e : Error) :
  let o := callRouterHandler a rh req params info in
  (rh_errorHandler rh, c1, err) ∈ error_handler_calls (events o) ->
  rh_errorHandler rh c1 err = (c2, EhThrows e) ->
  completion o = Throw e /\ handler_calls (events o) = [].
Proof.
  intros o. unfold o, callRouterHandler. rewrite run_compiled.
  unfold compiled.
  destruct (loop _ _) as [[c1' mcs] [err'|]]; simpl.
  - destruct (rh_errorHandler rh c1' err') as [c2' [res|e'|e']] eqn:Heh;
      simpl; rewrite error_handler_calls_app, error_handler_calls_events,
        handler_calls_app, handler_calls_events; simpl;
      intros Hin Hthrow; apply list_elem_of_singleton in Hin;
      injection Hin as <- <-;
      rewrite Heh in Hthrow; by simplify_eq.
  - rewrite error_handler_calls_app, error_handler_calls_events. simpl.
    intros Hin. inversion Hin.
Qed.

(** X11.  Every dispatch works on a context of its own: the first function
    called, be it a middleware or the handler, gets the request, the
    parameters and the connection information as they came in and an
    empty user data store.  A compiled not-found handler gets no
    parameters. *)
Theorem every_dispatch_starts_from_a_new_context
    (a : gmap loc (list Middleware)) (h : Handler) (eh : ErrorHandler)
    (l : loc) (req : Request) (params : option URLPatternResult)
    (info : option ServeHandlerInfo) :
  (exists (ev : Event) (rest : list Event),
     events (callRouterHandler a (createRouterHandler h eh l)
               req params info) = ev :: rest /\
     event_ctx ev = mkContext req params info ∅) /\
  (exists (ev : Event) (rest : list Event),
     events (callDenoHandler a (createDenoHandler h eh l) req info) =
       ev :: rest /\
     event_ctx ev = mkContext req None info ∅) /\
  forall key : string,
    UserData.get key (userData (createContext req params info)) = JUndefined.
Proof.
  unfold callRouterHandler, callDenoHandler. simpl. rewrite !run_compiled.
  split; [|split].
  - by destruct (compiled_shape eh (read a l) h
                   (createContext req params info)) as (_ & _ & _ & _ & H).
  - by destruct (compiled_shape eh (read a l) h
                   (createContext req None info)) as (_ & _ & _ & _ & H).
  - intros key.
    unfold UserData.get, createContext, UserData.createUserData. simpl.
    by rewrite lookup_empty.
Qed.

(** *** More about the table and about a running server *)

Local Abbreviation registration := (Router.registration URLPattern_valid).

Lemma call_route_summary (c : Call) (s : RouterState) :
  map route_summary (routes (call c s)) =
    map route_summary (routes s) ++
      match registration c with
      | Some summary => [summary]
      | None => []
      end.
Proof.
  destruct c as [ms|h|h|v pat h ms]; simpl; try by rewrite app_nil_r.
  unfold Router.factory.
  destruct (URLPattern_valid pat); simpl; [|by rewrite app_nil_r].
  by rewrite map_app.
Qed.

Lemma calls_route_summary (prog : list Call) :
  forall s : RouterState,
    map route_summary (routes (calls prog s)) =
      map route_summary (routes s) ++ omap registration prog.
Proof.
  induction prog as [|c prog IH]; intros s; simpl.
  - by rewrite app_nil_r.
  - rewrite IH, call_route_summary, <- app_assoc.
    by destruct (registration c).
Qed.

(** X12.  The table is the list of the registrations that succeeded, in
    the order of the calls: each one contributes one route with the
    upper-cased method of its registration function, its pattern and its
    handler; a registration whose pattern is rejected contributes
    nothing, and nothing is ever merged, reordered or dropped, not even
    a second registration of the same method and pattern. *)
Theorem table_lists_the_registrations_in_order (prog : list Call) :
  map route_summary (routes (calls prog router)) = omap registration prog.
Proof. by rewrite calls_route_summary. Qed.

Lemma verb_method_registered (v : Verb) :
  toUpperCase (verb_name v) ∈ registered_methods.
Proof.
  unfold registered_methods.
  apply (list_elem_of_fmap_2 (fun v => toUpperCase (verb_name v))).
  destruct v; set_solver.
Qed.

Lemma route_select_unmatched (rs : list Route) (req : Request) :
  (forall (i : nat) (r : Route), rs !! i = Some r -> route_match r req = None)
  -> route_select rs req = None.
Proof.
  induction rs as [|x rs IH]; intros Hnone; simpl; [done|].
  rewrite (Hnone O x eq_refl). apply IH.
  intros i r Hi. by apply (Hnone (S i)).
Qed.

(** X13.  Every route of a reachable table has exactly one method, one of
    GET, POST, PUT, DELETE and PATCH.  A request with any other method
    (HEAD, OPTIONS, a method in lower case) therefore matches no route
    and is answered by the not-found handler of the server. *)
Theorem only_the_five_methods_are_routed
    (prog : list Call) (srv : Server) (req : Request)
    (info : option ServeHandlerInfo) :
  request_method req ∉ registered_methods ->
  let now := calls prog router in
  registered_methods = ["GET"; "POST"; "PUT"; "DELETE"; "PATCH"] /\
  (forall (i : nat) (r : Route),
     routes now !! i = Some r ->
     exists m : string, method r = [m] /\ m ∈ registered_methods) /\
  route_select (routes now) req = None /\
  serve srv now req info =
    callDenoHandler (arrays now) (server_default srv) req info.
Proof.
  intros Hreq now.
  assert (forall (i : nat) (r : Route),
            routes now !! i = Some r ->
            exists m : string, method r = [m] /\ m ∈ registered_methods)
    as Hmethods.
  { intros i r Hr.
    destruct (routes_registered prog i r Hr)
      as (_ & v & _ & _ & _ & _ & _ & _ & _ & Hm & _).
    exists (toUpperCase (verb_name v)).
    split; [done | apply verb_method_registered]. }
  assert (route_select (routes now) req = None) as Hmiss.
  { apply route_select_unmatched. intros i r Hr.
    destruct (Hmethods i r Hr) as (m & Hm & Hin).
    unfold Router.route_match. rewrite Hm.
    rewrite bool_decide_eq_false_2; [done|].
    intros Heq%list_elem_of_singleton. apply Hreq. by rewrite Heq. }
  repeat split; try done.
  unfold Router.serve, Router.route. by rewrite Hmiss.
Qed.

Lemma calls_notFoundHandler (later : list Call) :
  forall s : RouterState,
    notFoundHandler
      (calls (List.filter (fun c => negb (is_onNotFound c)) later) s) =
    notFoundHandler s.
Proof.
  induction later as [|c later IH]; intros s; simpl; [done|].
  destruct (is_onNotFound c) eqn:Hc; simpl; [apply IH|].
  by rewrite IH, call_notFoundHandler.
Qed.

(** X14.  The not-found handler compiled by [onNotFound] keeps the error
    handler that was current at that call.  No later call other than
    another [onNotFound] replaces the compiled handler, so an [onError]
    made afterwards has no effect on the not-found path: whenever a
    global middleware fails there, the error handler that is called is
    the earlier one. *)
Theorem not_found_path_keeps_its_error_handler
    (prog : list Call) (h : Handler) (later : list Call)
    (req : Request) (info : option ServeHandlerInfo) :
  let s := calls prog router in
  let s1 := onNotFound h s in
  let s2 := calls (List.filter (fun c => negb (is_onNotFound c)) later) s1 in
  (exists copy : loc,
     notFoundHandler s2 = createDenoHandler h (errorHandler s) copy /\
     read (arrays s2) copy = used prog) /\
  forall (eh : ErrorHandler) (c : Context) (err : Error),
    (eh, c, err) ∈
      error_handler_calls
        (events (callDenoHandler (arrays s2) (notFoundHandler s2) req info))
    -> eh = errorHandler s.
Proof.
  intros s s1 s2.
  destruct (reachable_globalMiddlewares prog) as [Hg Hused].
  fold s in Hg, Hused.
  set (l := fresh (dom (arrays s))).
  assert (notFoundHandler s2 = createDenoHandler h (errorHandler s) l)
    as Hnf by (unfold s2; by rewrite calls_notFoundHandler).
  assert (read (arrays s2) l = used prog) as Hread.
  { unfold s2. rewrite calls_frame.
    - simpl. by rewrite read_insert_eq.
    - simpl. rewrite dom_insert. set_solver.
    - by apply fresh_not_in. }
  split; [by exists l|].
  intros eh c err. rewrite Hnf. simpl. rewrite run_compiled.
  unfold compiled.
  destruct (loop _ _) as [[c1 mcs] [err'|]]; simpl.
  - destruct (errorHandler s c1 err') as [c2 [res|e|e]]; simpl;
      rewrite error_handler_calls_app, error_handler_calls_events; simpl;
      intros Hin; apply list_elem_of_singleton in Hin; by simplify_eq.
  - rewrite error_handler_calls_app, error_handler_calls_events. simpl.
    intros Hin. inversion Hin.
Qed.

(** X15.  [use] adds up: two calls in a row do what one call with all the
    middlewares does, and a call without middlewares in a reachable
    state changes nothing. *)
Theorem use_adds_up
    (prog : list Call) (ms1 ms2 : list Middleware) (s : RouterState) :
  use ms2 (use ms1 s) = use (ms1 ++ ms2) s /\
  use [] (calls prog router) = calls prog router.
Proof.
  split.
  - unfold use, push. simpl.
    by rewrite read_insert_eq, insert_insert_eq, app_assoc.
  - destruct (reachable_globalMiddlewares prog) as [Hg _].
    revert Hg. generalize (calls prog router).
    intros [a rs g eh nf] Hg. simpl in Hg.
    unfold use, push. simpl. f_equal.
    apply elem_of_dom in Hg as [x Hx].
    apply insert_id. unfold read. by rewrite Hx, app_nil_r.
Qed.

Lemma route_select_app (rs1 rs2 : list Route) (req : Request) :
  route_select rs1 req = None ->
  route_select (rs1 ++ rs2) req = route_select rs2 req.
Proof.
  induction rs1 as [|x rs1 IH]; simpl; [done|].
  destruct (route_match x req); [discriminate | exact IH].
Qed.

(** X16.  The table is read at every request.  A route registered after
    [listen] is served by the running server: a request that matched
    nothing before the registration, and that the new route matches,
    goes to the handler of the new route with the captured groups. *)
Theorem route_registered_after_listen_is_served
    (prog : list Call) (v : Verb) (pat : string) (h : Handler)
    (ms : list Middleware) (req : Request)
    (info : option ServeHandlerInfo) (groups : URLPatternResult) :
  URLPattern_valid pat = true ->
  let s := calls prog router in
  let s' := call (CallVerb v pat h ms) s in
  route_select (routes s) req = None ->
  request_method req = toUpperCase (verb_name v) ->
  URLPattern_exec (mkURLPattern pat) (request_url req) = Some groups ->
  exists r : Route,
    routes s' = routes s ++ [r] /\
    rh_handler (handler r) = h /\
    read (arrays s') (rh_middlewares (handler r)) = used prog ++ ms /\
    serve (listen s) s req info =
      callDenoHandler (arrays s) (notFoundHandler s) req info /\
    serve (listen s) s' req info =
      callRouterHandler (arrays s') (handler r) req (Some groups) info.
Proof.
  intros Hvalid s s' Hmiss Hmethod Hexec.
  destruct (registration_appends prog v pat h ms [] Hvalid)
    as (r & Hroutes & _ & Hm & Hp & Hh & _ & _ & Hread & _).
  fold s in Hroutes, Hread. fold s' in Hroutes, Hread.
  destruct (reachable_globalMiddlewares prog) as [_ Hused].
  fold s in Hused.
  exists r. repeat split; try done.
  - by rewrite Hread, Hused.
  - unfold Router.serve, Router.route. by rewrite Hmiss.
  - unfold Router.serve, Router.route.
    rewrite Hroutes, route_select_app by done. simpl.
    unfold Router.route_match. rewrite Hm, Hp, Hmethod.
    rewrite bool_decide_eq_true_2 by (by apply list_elem_of_singleton).
    by rewrite Hexec.
Qed.

Lemma call_routes_not_verb (c : Call) (s : RouterState) :
  is_verb c = false -> routes (call c s) = routes s.
Proof. by destruct c. Qed.

Lemma calls_routes_not_verb (later : list Call) :
  forall s : RouterState,
    routes (calls (List.filter (fun c => negb (is_verb c)) later) s) =
    routes s.
Proof.
  induction later as [|c later IH]; intros s; simpl; [done|].
  destruct (is_verb c) eqn:Hc; simpl; [apply IH|].
  by rewrite IH, call_routes_not_verb.
Qed.

Lemma route_select_lookup (rs : list Route) (req : Request)
    (r : Route) (groups : URLPatternResult) :
  route_select rs req = Some (r, groups) ->
  exists i : nat, rs !! i = Some r.
Proof.
  induction rs as [|x rs IH]; simpl; [discriminate|].
  destruct (route_match x req) as [g|].
  - intros [= <- <-]. by exists O.
  - intros Hsel. destruct (IH Hsel) as [i Hi]. by exists (S i).
Qed.

(** X17.  Once a server is listening, only registrations of routes can
    change its answers.  Calls of [use], [onError] and [onNotFound] made
    after [listen], in any number and order, leave the answer of the
    running server to every request as it was. *)
Theorem only_registrations_reach_a_running_server
    (prog later : list Call) (req : Request)
    (info : option ServeHandlerInfo) :
  let s := calls prog router in
  let now := calls (List.filter (fun c => negb (is_verb c)) later) s in
  serve (listen s) now req info = serve (listen s) s req info.
Proof.
  intros s now. unfold Router.serve, Router.route.
  assert (routes now = routes s) as -> by apply calls_routes_not_verb.
  destruct (reachable_globalMiddlewares prog) as [Hg _]. fold s in Hg.
  destruct (route_select (routes s) req) as [[r groups]|] eqn:Hsel.
  - destruct (route_select_lookup _ _ _ _ Hsel) as [i Hi].
    destruct (routes_registered prog i r Hi)
      as (_ & _ & _ & _ & _ & _ & _ & _ & _ & _ & _ & _ & _ & _ & Hdom
          & Hne).
    unfold callRouterHandler. unfold now. by rewrite calls_frame.
  - simpl. pose proof (not_found_compiled prog) as Hnf.
    unfold Router.not_found_compiled_by in Hnf. fold s in Hnf.
    destruct (last_onNotFound prog) as [[before h]|].
    + destruct Hnf as (l & -> & _ & Hdom & Hne). simpl.
      unfold now. by rewrite calls_frame.
    + by rewrite Hnf.
Qed.
End WithPlatform.

(** *** The claims on concrete applications *)

Import Examples.

(** C1, on the application of the README.  A request for [/] without an
    [Authorization] header makes the global middleware throw.  The error
    handler is then called once, with the context and the error, and
    returns a response with status 500; that response is dropped, the
    handler of the route is called and the request is answered with its
    response, status 200. *)
Theorem failing_middleware_does_not_stop_the_handler :
  let now := calls any_pattern readme router in
  let o := serve literal_exec (listen now) now (GET "/") None in
  let c := createContext (GET "/") (Some []) None in
  events o =
    [MiddlewareCalled requireAuthorization c;
     ErrorHandlerCalled defaultErrorHandler c (mkError "Unauthorized");
     HandlerCalled hello c] /\
  snd (defaultErrorHandler c (mkError "Unauthorized")) =
    EhResponse (mkResponse 500 [] (Some "Error: Unauthorized")) /\
  completion o =
    Normal (mkResponse 200 [("Content-Type", "text/plain")]
              (Some "Hello world!")).
Proof. vm_compute. repeat split. Qed.

Lemma in_declared_order_first (c c' : Context) (mw mw' : Middleware)
    (rest : list Middleware) (after : list (Middleware * Context)) :
  InDeclaredOrder c (mw :: rest) ((mw', c') :: after) -> mw = mw'.
Proof. intros H. by inversion H. Qed.

(** C3 as stated fails: a global middleware passed to [use] after a
    route was registered does not run for that route.  The route has one
    middleware of its own; the global middleware, which would throw, is
    in the global list when the request arrives; the request runs the
    middleware of the route only and is answered by the handler. *)
Lemma late_global_middleware_does_not_run :
  let now := calls any_pattern late_use router in
  let o := serve literal_exec (listen now) now (GET "/") None in
  read (arrays now) (globalMiddlewares now) = [requireAuthorization] /\
  map fst (middleware_calls (events o)) = [mark "r"] /\
  completion o =
    Normal (mkResponse 200 [("Content-Type", "text/plain")]
              (Some "Hello world!")) /\
  ~ InDeclaredOrder (createContext (GET "/") (Some []) None)
      (read (arrays now) (globalMiddlewares now) ++ [mark "r"])
      (middleware_calls (events o)).
Proof.
  split; [by vm_compute|]. split; [by vm_compute|]. split; [by vm_compute|].
  intros H. vm_compute in H.
  apply in_declared_order_first in H.
  apply (f_equal (fun mw : Middleware =>
                    snd (mw (createContext (GET "/") None None)))) in H.
  vm_compute in H. discriminate.
Qed.

Lemma in_declared_order_nonempty (c : Context) (mw : Middleware)
    (rest : list Middleware) :
  ~ InDeclaredOrder c (mw :: rest) [].
Proof. intros H. inversion H. Qed.

(** C4 as stated fails: with one global middleware in use and no
    [onNotFound] call, a request that matches no route is answered
    without that middleware being called. *)
Lemma default_not_found_skips_global_middlewares :
  let now := calls any_pattern [CallUse [mark "seen"]] router in
  let o := serve literal_exec (listen now) now (GET "/missing") None in
  route_select literal_exec (routes now) (GET "/missing") = None /\
  read (arrays now) (globalMiddlewares now) = [mark "seen"] /\
  events o = [] /\
  ~ InDeclaredOrder (createContext (GET "/missing") None None)
      (read (arrays now) (globalMiddlewares now))
      (middleware_calls (events o)).
Proof.
  split; [by vm_compute|]. split; [by vm_compute|]. split; [by vm_compute|].
  intros H. vm_compute in H. exact (in_declared_order_nonempty _ _ _ H).
Qed.


(** *** The theorems at work on concrete programs *)

Lemma middlewares_run_in_declared_order_witness :
  routes (calls any_pattern layered router) !! O = Some layered_route /\
  (exists (before : list Call) (v : Verb) (pat : string) (h : Handler)
          (ms : list Middleware) (after : list Call),
     layered = before ++ CallVerb v pat h ms :: after /\
     length (routes (calls any_pattern before router)) = O /\
     rh_handler (handler layered_route) = h /\
     InDeclaredOrder (createContext (GET "/") (Some []) None)
       (used before ++ ms)
       (middleware_calls
          (events (callRouterHandler
                     (arrays (calls any_pattern layered router))
                     (handler layered_route) (GET "/") (Some []) None))))
  /\
  map fst
    (middleware_calls
       (events (callRouterHandler (arrays (calls any_pattern layered router))
                  (handler layered_route) (GET "/") (Some []) None))) =
    [mark "g1"; mark "g2"; mark "r1"; failing].
Proof.
  assert (routes (calls any_pattern layered router) !! O = Some layered_route)
    as Hroute by (vm_compute; reflexivity).
  split; [exact Hroute|]. split.
  - exact (middlewares_run_in_declared_order any_pattern layered O
             layered_route (GET "/") (Some []) None Hroute).
  - vm_compute. reflexivity.
Defined.

Lemma registered_route_is_unaffected_by_later_calls_witness :
  any_pattern "/" = true /\
  exists r : Route,
    routes (call any_pattern (CallVerb get "/" hello [mark "b"])
              (calls any_pattern [CallUse [mark "a"]] router)) =
      routes (calls any_pattern [CallUse [mark "a"]] router) ++ [r] /\
    routes (calls any_pattern [CallOnError teapot; CallUse [mark "c"]]
              (call any_pattern (CallVerb get "/" hello [mark "b"])
                 (calls any_pattern [CallUse [mark "a"]] router)))
      !! length (routes (calls any_pattern [CallUse [mark "a"]] router)) =
      Some r /\
    rh_handler (handler r) = hello /\
    rh_errorHandler (handler r) =
      errorHandler (calls any_pattern [CallUse [mark "a"]] router).
Proof.
  split; [reflexivity|].
  destruct (registered_route_is_unaffected_by_later_calls any_pattern
              [CallUse [mark "a"]] get "/" hello [mark "b"]
              [CallOnError teapot; CallUse [mark "c"]] eq_refl)
    as (r & H1 & H2 & H3 & H4 & _).
  exists r. repeat split; assumption.
Defined.

Lemma registration_order_is_precedence_witness :
  any_pattern "/" = true /\
  exists r1 r2 : Route,
    routes (calls any_pattern two_routes router) !! O = Some r1 /\
    routes (calls any_pattern two_routes router) !! 1%nat = Some r2 /\
    rh_handler (handler r1) = hello /\
    rh_handler (handler r2) = other.
Proof.
  split; [reflexivity|].
  destruct (registration_order_is_precedence any_pattern literal_exec
              [] get "/" hello [] [] get "/" other [] []
              (mkServer defaultNotFoundHandler) (GET "/") None
              eq_refl eq_refl)
    as (r1 & r2 & _ & H1 & H2 & _ & _ & H3 & _ & _ & H4 & _).
  exists r1, r2. repeat split; assumption.
Defined.

Lemma unmatched_request_takes_the_not_found_path_witness :
  route_select literal_exec
    (routes (calls any_pattern [CallUse [mark "b"]]
               (calls any_pattern with_not_found router)))
    (GET "/missing") = None /\
  InDeclaredOrder (createContext (GET "/missing") None None)
    (used [CallUse [mark "a"]])
    (middleware_calls
       (events
          (serve literal_exec
             (listen (calls any_pattern with_not_found router))
             (calls any_pattern [CallUse [mark "b"]]
                (calls any_pattern with_not_found router))
             (GET "/missing") None))) /\
  exists c : Context,
    c = thread (createContext (GET "/missing") None None)
          (used [CallUse [mark "a"]]) /\
    completion
      (serve literal_exec
         (listen (calls any_pattern with_not_found router))
         (calls any_pattern [CallUse [mark "b"]]
            (calls any_pattern with_not_found router))
         (GET "/missing") None) = snd (notFoundPage c).
Proof.
  assert (route_select literal_exec
            (routes (calls any_pattern [CallUse [mark "b"]]
                       (calls any_pattern with_not_found router)))
            (GET "/missing") = None) as Hmiss by (vm_compute; reflexivity).
  assert (error_handler_calls
            (events
               (serve literal_exec
                  (listen (calls any_pattern with_not_found router))
                  (calls any_pattern [CallUse [mark "b"]]
                     (calls any_pattern with_not_found router))
                  (GET "/missing") None)) = []) as Hquiet
    by (vm_compute; reflexivity).
  split; [exact Hmiss|].
  pose proof (unmatched_request_takes_the_not_found_path any_pattern
                literal_exec with_not_found [CallUse [mark "b"]]
                (GET "/missing") None Hmiss) as Hpath.
  split; [exact (proj1 Hpath)|].
  destruct (proj2 (proj2 Hpath) Hquiet) as (c & _ & _ & Hc & Hanswer).
  exists c. split; [exact Hc | exact Hanswer].
Defined.

Lemma handler_failure_propagates_witness :
  (broken, createContext (GET "/") None None) ∈
    handler_calls
      (events (callRouterHandler ∅ broken_route (GET "/") None None)) /\
  broken (createContext (GET "/") None None) =
    (createContext (GET "/") None None, Throw (mkError "boom")) /\
  completion (callRouterHandler ∅ broken_route (GET "/") None None) =
    Throw (mkError "boom").
Proof.
  assert ((broken, createContext (GET "/") None None) ∈
            handler_calls
              (events (callRouterHandler ∅ broken_route (GET "/") None None)))
    as Hcalled by (apply list_elem_of_singleton; reflexivity).
  split; [exact Hcalled|]. split; [reflexivity|].
  exact (proj1 (handler_failure_propagates ∅ broken_route (GET "/") None None
                  (createContext (GET "/") None None)
                  (createContext (GET "/") None None)
                  (mkError "boom") Hcalled eq_refl)).
Defined.


Lemma successful_chain_hands_its_context_to_the_handler_witness :
  succeeds (createContext (GET "/") None None)
    (read (one_array [mark "a"])
       (rh_middlewares (createRouterHandler report defaultErrorHandler
                          1%positive))) = true /\
  completion
    (callRouterHandler (one_array [mark "a"])
       (createRouterHandler report defaultErrorHandler 1%positive)
       (GET "/") None None) =
    Normal (mkResponse 200 [("Content-Type", "text/plain")] (Some "marked")).
Proof.
  assert (succeeds (createContext (GET "/") None None)
            (read (one_array [mark "a"])
               (rh_middlewares (createRouterHandler report
                                  defaultErrorHandler 1%positive))) = true)
    as Hok by (vm_compute; reflexivity).
  split; [exact Hok|].
  destruct (successful_chain_hands_its_context_to_the_handler
              (one_array [mark "a"])
              (createRouterHandler report defaultErrorHandler 1%positive)
              (GET "/") None None Hok) as (_ & _ & _ & ->).
  vm_compute. reflexivity.
Defined.

Lemma throwing_error_handler_ends_the_request_witness :
  (throwing, createContext (GET "/") None None, mkError "no") ∈
    error_handler_calls
      (events (callRouterHandler (one_array [failing])
                 (createRouterHandler hello throwing 1%positive)
                 (GET "/") None None)) /\
  completion
    (callRouterHandler (one_array [failing])
       (createRouterHandler hello throwing 1%positive) (GET "/") None None)
    = Throw (mkError "handler of errors failed").
Proof.
  assert ((throwing, createContext (GET "/") None None, mkError "no") ∈
            error_handler_calls
              (events (callRouterHandler (one_array [failing])
                         (createRouterHandler hello throwing 1%positive)
                         (GET "/") None None))) as Hcalled
    by (apply list_elem_of_singleton; reflexivity).
  split; [exact Hcalled|].
  exact (proj1 (throwing_error_handler_ends_the_request
                  (one_array [failing])
                  (createRouterHandler hello throwing 1%positive)
                  (GET "/") None None
                  (createContext (GET "/") None None)
                  (createContext (GET "/") None None)
                  (mkError "no") (mkError "handler of errors failed")
                  Hcalled eq_refl)).
Defined.

Lemma only_the_five_methods_are_routed_witness :
  ("HEAD" ∉ registered_methods) /\
  route_select literal_exec (routes (calls any_pattern readme router))
    (mkRequest "HEAD" "http://localhost/") = None.
Proof.
  assert ((request_method (mkRequest "HEAD" "http://localhost/"))
            ∉ registered_methods) as Hhead.
  { simpl. intros Hin. vm_compute in Hin.
    repeat (apply elem_of_cons in Hin as [Hin | Hin]; [discriminate|]).
    inversion Hin. }
  split; [exact Hhead|].
  destruct (only_the_five_methods_are_routed any_pattern literal_exec readme
              (mkServer defaultNotFoundHandler)
              (mkRequest "HEAD" "http://localhost/") None Hhead)
    as (_ & _ & Hmiss & _).
  exact Hmiss.
Defined.

Lemma route_registered_after_listen_is_served_witness :
  any_pattern "/" = true /\
  route_select literal_exec (routes (calls any_pattern [] router))
    (GET "/") = None /\
  exists r : Route,
    routes (call any_pattern (CallVerb get "/" hello [])
              (calls any_pattern [] router)) =
      routes (calls any_pattern [] router) ++ [r] /\
    rh_handler (handler r) = hello.
Proof.
  split; [reflexivity|]. split; [reflexivity|].
  destruct (route_registered_after_listen_is_served any_pattern literal_exec
              [] get "/" hello [] (GET "/") None [] eq_refl eq_refl eq_refl
              eq_refl) as (r & H1 & H2 & _).
  exists r. split; assumption.
Defined.
End RouterSpec.

(* ===================================================================== *)
(** ** Properties of the start-up code                                    *)
(* ===================================================================== *)

Module StartupSpec.
Import Startup.
Import Examples.

Lemma or_else_without_empty (env : Env) (name fallback : string) :
  or_else (without_empty env name) fallback = or_else (env name) fallback.
Proof.
  unfold without_empty, or_else.
  destruct (env name) as [s|]; [|done].
  destruct (String.eqb s "") eqn:Hs; [done|]. by rewrite Hs.
Qed.

(** X18.  The minimum severity is [Warn] exactly when [LOG_LEVEL] is the
    string [warn] and [Error] exactly when it is the string [error]; in
    every other case, the variable not set, empty, misspelt or written
    in capitals, it is [Info]. *)
Theorem severity_recognises_warn_and_error_only (env : Env) :
  (severity env = Warn <-> env "LOG_LEVEL" = Some "warn") /\
  (severity env = Error <-> env "LOG_LEVEL" = Some "error") /\
  (env "LOG_LEVEL" <> Some "warn" -> env "LOG_LEVEL" <> Some "error" ->
   severity env = Info).
Proof.
  unfold severity, logLevel, or_else.
  destruct (env "LOG_LEVEL") as [s|]; simpl.
  - destruct (String.eqb s "") eqn:Hempty; simpl.
    + apply String.eqb_eq in Hempty as ->. repeat split; try done.
    + destruct (String.eqb s "info") eqn:Hinfo.
      { apply String.eqb_eq in Hinfo as ->. repeat split; try done. }
      destruct (String.eqb s "warn") eqn:Hwarn.
      { apply String.eqb_eq in Hwarn as ->. repeat split; try done. }
      destruct (String.eqb s "error") eqn:Herror.
      { apply String.eqb_eq in Herror as ->. repeat split; try done. }
      apply String.eqb_neq in Hwarn, Herror.
      repeat split; try done; intros [= ->]; done.
  - repeat split; try done.
Qed.

(** X19.  A variable of the environment that is set to the empty string
    counts as not set, for the log level and for the host and the port
    of [listen] alike. *)
Theorem empty_variable_counts_as_unset
    (env : Env) (options : option ServeOptions) (s : Router.RouterState) :
  severity (without_empty env) = severity env /\
  listen (without_empty env) options s = listen env options s.
Proof.
  split.
  - unfold severity, logLevel. by rewrite or_else_without_empty.
  - unfold listen. rewrite or_else_without_empty.
    assert (match without_empty env "PORT" with
            | Some p =>
                if String.eqb p "" then PortNumber 8000 else PortString p
            | None => PortNumber 8000
            end =
            match env "PORT" with
            | Some p =>
                if String.eqb p "" then PortNumber 8000 else PortString p
            | None => PortNumber 8000
            end) as ->; [|done].
    unfold without_empty. destruct (env "PORT") as [p|]; [|done].
    destruct (String.eqb p "") eqn:Hp; [done|]. by rewrite Hp.
Qed.

(** X20.  What the caller of [listen] passes wins over the environment,
    field by field, and what it leaves out is taken from the environment
    or the defaults.  With host, port and callback all passed, the
    environment plays no part and the line [Listening to ...] of the
    router is not logged by [listen]; the dispatch function handed to
    the serve primitive is that of the router in every case. *)
Theorem options_win_over_the_environment
    (env env' : Env) (o : ServeOptions) (s : Router.RouterState)
    (host : string) (p : Z) (callback : OnListen) :
  o_hostname o = Some host ->
  o_port o = Some p ->
  o_onListen o = Some callback ->
  listen env (Some o) s =
    mkServeInit host (PortNumber p) (Router.listen s) callback /\
  listen env (Some o) s = listen env' (Some o) s /\
  handler (listen env None s) = handler (listen env (Some o) s).
Proof.
  intros Hh Hp Hc. unfold listen. by rewrite Hh, Hp, Hc.
Qed.

(** X21.  A port taken from the environment is handed on as the string
    found there, not as a number; the port is a number only when it is
    the default 8000 or was passed by the caller. *)
Theorem port_from_the_environment_stays_a_string
    (env : Env) (o : ServeOptions) (s : Router.RouterState) (p : string) :
  env "PORT" = Some p ->
  p <> "" ->
  o_port o = None ->
  port (listen env None s) = PortString p /\
  port (listen env (Some o) s) = PortString p.
Proof.
  intros Henv Hp Ho. unfold listen. rewrite Henv, Ho.
  apply String.eqb_neq in Hp. by rewrite Hp.
Qed.

Lemma options_win_over_the_environment_witness :
  o_hostname (mkServeOptions (Some "127.0.0.1") (Some 3000)
                (Some (fun _ _ => []))) = Some "127.0.0.1" /\
  listen production
    (Some (mkServeOptions (Some "127.0.0.1") (Some 3000)
             (Some (fun _ _ => [])))) Router.router =
    mkServeInit "127.0.0.1" (PortNumber 3000)
      (Router.listen Router.router) (fun _ _ => []).
Proof.
  split; [reflexivity|].
  exact (proj1 (options_win_over_the_environment production (fun _ => None)
                  (mkServeOptions (Some "127.0.0.1") (Some 3000)
                     (Some (fun _ _ => [])))
                  Router.router "127.0.0.1" 3000 (fun _ _ => [])
                  eq_refl eq_refl eq_refl)).
Defined.

Lemma port_from_the_environment_stays_a_string_witness :
  production "PORT" = Some "8080" /\
  port (listen production None Router.router) = PortString "8080".
Proof.
  split; [reflexivity|].
  assert ("8080" <> "") as Hne by discriminate.
  exact (proj1 (port_from_the_environment_stays_a_string production
                  (mkServeOptions None None None) Router.router "8080"
                  eq_refl Hne eq_refl)).
Defined.

End StartupSpec.
